(** * Warehouse ledger (gudang_supabase.py): model and properties

    A shallow embedding of the stock-adjustment and transaction-ledger
    code of [gudang_supabase.py], and of its reporting helper
    [totals_for_period].

    Modelling conventions.
    - The three Supabase tables are lists of rows in storage order; a
      [select ... limit(1)] returns the first matching row.
    - Quantities ([DOUBLE PRECISION] columns, Python floats) are exact
      rationals [Q]; rounding is not modelled.  The statements below
      compare quantities and follow single additions and subtractions of
      the code; none of them regroups a sum or cancels a summand, which
      floating point arithmetic would not allow.  A stored quantity may
      be NULL ([None]); the code reads it with
      [item.get("quantity") or 0].
    - A character is a code point below 256.
    - [datetime.now()] reads an oracle: the [n]-th reading of the clock is
      [clock w n].  [random.randint(100, 999)] is an argument of the
      handler that draws it.
    - Streamlit output ([st.error], [st.success]) is appended to a log;
      the pending batch lines live in the session state.
    - The handlers are the blocks under [if submitted:].  The multi-item
      "Barang Keluar" page is modelled as a whole run as well
      ([out_multi_page]), since its form calls [st.button] before it
      reaches the submit button. *)

From Stdlib Require Import List String Ascii ZArith QArith Bool Lia Lqa.
From Stdlib Require Import DecimalString DecimalZ DecimalPos Permutation.
Import ListNotations.

Local Open Scope string_scope.
Local Open Scope Z_scope.

(** ** Python string helpers *)

(** [str.isspace] on the code points below 256. *)
Definition isspace (c : ascii) : bool :=
  let n := Z.of_N (N_of_ascii c) in
  ((9 <=? n) && (n <=? 13)) || ((28 <=? n) && (n <=? 32))
  || (n =? 133) || (n =? 160).

Fixpoint lstrip (s : string) : string :=
  match s with
  | EmptyString => EmptyString
  | String c r => if isspace c then lstrip r else s
  end.

Fixpoint rstrip (s : string) : string :=
  match s with
  | EmptyString => EmptyString
  | String c r =>
      match rstrip r with
      | EmptyString => if isspace c then EmptyString else String c EmptyString
      | r' => String c r'
      end
  end.

(** [s.strip()] *)
Definition strip (s : string) : string := rstrip (lstrip s).

Definition map_string (f : ascii -> ascii) : string -> string :=
  fix go s :=
    match s with
    | EmptyString => EmptyString
    | String c r => String (f c) (go r)
    end.

Definition upper_char (c : ascii) : ascii :=
  let n := Z.of_N (N_of_ascii c) in
  if (97 <=? n) && (n <=? 122) then ascii_of_N (Z.to_N (n - 32)) else c.

Definition lower_char (c : ascii) : ascii :=
  let n := Z.of_N (N_of_ascii c) in
  if ((65 <=? n) && (n <=? 90))
     || ((192 <=? n) && (n <=? 222) && negb (n =? 215))
  then ascii_of_N (Z.to_N (n + 32)) else c.

(** [s.upper()], used on the literals "in" and "out" only. *)
Definition upper : string -> string := map_string upper_char.
(** [s.lower()] *)
Definition lower : string -> string := map_string lower_char.

(** Python truthiness of a string: [not s] holds for the empty string. *)
Definition py_not (s : string) : bool :=
  match s with EmptyString => true | _ => false end.

(** Decimal rendering of an integer, [str(n)]. *)
Definition str_Z (n : Z) : string := NilZero.string_of_int (Z.to_int n).

(** The [%02d] fields of [strftime]. *)
Definition pad2 (n : Z) : string :=
  if n <? 10 then "0" ++ str_Z n else str_Z n.

(** ** Python number helpers *)

(** [x or 0] on a number: a zero is replaced by the integer 0. *)
Definition or0 (x : Q) : Q := if Qeq_bool x 0 then 0%Q else x.

(** [d.get(key) or 0] on a nullable number. *)
Definition get_or0 (x : option Q) : Q :=
  match x with
  | None => 0%Q
  | Some q => or0 q
  end.

(** [a < b] on numbers. *)
Definition Qltb (a b : Q) : bool := negb (Qle_bool b a).

(** ** Calendar *)

Record Date := mkDate { year : Z; month : Z; day : Z }.

Record Datetime := mkDatetime {
  dt_date : Date;
  dt_hour : Z;
  dt_minute : Z;
  dt_second : Z
}.

Definition is_leap (y : Z) : bool :=
  ((y mod 4 =? 0) && negb (y mod 100 =? 0)) || (y mod 400 =? 0).

(** Days of the year before the first of month [m] ([datetime._days_before_month]). *)
Definition days_before_month (y m : Z) : Z :=
  let base :=
    match m with
    | 1 => 0 | 2 => 31 | 3 => 59 | 4 => 90 | 5 => 120 | 6 => 151
    | 7 => 181 | 8 => 212 | 9 => 243 | 10 => 273 | 11 => 304 | _ => 334
    end in
  if (2 <? m) && is_leap y then base + 1 else base.

(** Days before January 1st of year [y] ([datetime._days_before_year]). *)
Definition days_before_year (y : Z) : Z :=
  let p := y - 1 in
  p * 365 + p / 4 - p / 100 + p / 400.

(** [tm_yday]: day of the year, January 1st is 0. *)
Definition yday (d : Date) : Z := days_before_month (year d) (month d) + day d - 1.

(** [date.toordinal()]: 0001-01-01 is day 1. *)
Definition toordinal (d : Date) : Z := days_before_year (year d) + yday d + 1.

(** [date.weekday()]: Monday is 0, Sunday is 6. *)
Definition weekday (d : Date) : Z := (toordinal d + 6) mod 7.

(** The [%W] field of [strftime]: week number of the year with Monday as
    the first day of the week; the days before the first Monday of the
    year are in week 0. *)
Definition week_W (d : Date) : Z := (yday d + 7 - weekday d) / 7.

(** [strftime('%Y-%W')] *)
Definition strftime_Y_W (d : Date) : string :=
  str_Z (year d) ++ "-" ++ pad2 (week_W d).

(** [strftime('%Y-%m')] *)
Definition strftime_Y_m (d : Date) : string :=
  str_Z (year d) ++ "-" ++ pad2 (month d).

(** [strftime('%Y%m%d-%H%M%S')] *)
Definition strftime_compact (t : Datetime) : string :=
  str_Z (year (dt_date t)) ++ pad2 (month (dt_date t)) ++ pad2 (day (dt_date t))
  ++ "-" ++ pad2 (dt_hour t) ++ pad2 (dt_minute t) ++ pad2 (dt_second t).

(** ** Data model: the three tables *)

Record User := mkUser {
  username : string;
  password_hash : string
}.

Record Item := mkItem {
  item_id : Z;
  item_name : string;
  item_category : string;
  item_unit : string;
  item_quantity : option Q;
  item_min_stock : Q;
  item_rack_location : string;
  item_expiry_date : option Date;
  item_created_at : Datetime;
  item_updated_at : Datetime
}.

Record Transaction := mkTransaction {
  trx_id : Z;
  trx_type : string;
  trx_item_id : option Z;
  trx_name : string;
  trx_quantity : Q;
  trx_unit : string;
  trx_requester : option string;
  trx_supplier : option string;
  trx_note : string;
  trx_bundle_code : string;
  trx_code : string;
  trx_expiry_date : option Date;
  trx_created_at : Datetime
}.

(** The rows and the two [SERIAL] counters of the backend. *)
Record Database := mkDatabase {
  tbl_users : list User;
  tbl_items : list Item;
  tbl_transactions : list Transaction;
  seq_items : Z;
  seq_transactions : Z
}.

(** ** Session state and Streamlit output *)

(** A pending line of the multi-item inbound form ([st.session_state.in_multi]). *)
Record InLine := mkInLine {
  in_name : string;
  in_unit : string;
  in_quantity : Q;
  in_category : string;
  in_min_stock : Q;
  in_rack_location : string;
  in_expiry_date : string
}.

(** A pending line of the multi-item outbound form ([st.session_state.out_multi]). *)
Record OutLine := mkOutLine {
  out_name : string;
  out_unit : string;
  out_quantity : Q;
  out_note : string
}.

(** The second component returned by [adjust_item_for_out]. *)
Inductive AdjustError :=
| ItemTidakDitemukan                    (* "Item tidak ditemukan" *)
| StokTidakCukup (tersedia : Q).        (* "Stok tidak cukup: tersedia {existing}" *)

(** One entry of the [insufficient] list of the outbound pre-flight pass. *)
Inductive Shortage :=
| ShortMissing                                (* "Item tidak ditemukan" *)
| ShortStock (stok : option Q) (diminta : Q). (* "Stok: {..}, diminta: {..}" *)

(** The texts shown by the handlers, with their interpolated values. *)
Inductive Message :=
| MsgInFieldsRequired     (* "Nama, jumlah (>0), dan satuan harus diisi" *)
| MsgOutFieldsRequired    (* "Nama, jumlah (>0), satuan dan nama peminta harus diisi" *)
| MsgNoItems              (* "Tidak ada item untuk disimpan" *)
| MsgRequesterRequired    (* "Nama peminta harus diisi" *)
| MsgBadLines (baris : list nat)   (* one "Baris {idx+1}: ..." per entry *)
| MsgNotInInventory       (* "Item tidak ditemukan di inventory" *)
| MsgStockShort (stok : option Q) (diminta : Q)  (* "Stok tidak cukup. Stok: .., diminta: .." *)
| MsgAdjust (e : AdjustError)
| MsgRejected (reasons : list (string * Shortage)) (* "Transaksi ditolak karena ..." *)
| MsgSaved                (* "Transaksi berhasil disimpan!" *)
| MsgInDone (qty : Q) (unit_ name code : string)  (* "Sukses: .. ditambahkan. Trx: .." *)
| MsgInBatchDone (code : string)   (* "Sukses menyimpan batch masuk. Trx: .." *)
| MsgOutDone (qty : Q) (unit_ name code : string) (* "Sukses: .. dikeluarkan. Trx: .." *)
| MsgOutBatchDone (code : string)  (* "Sukses menyimpan batch keluar. Trx: .." *)
| MsgResetDone.           (* "DB telah dikosongkan. Silakan refresh." *)

Inductive UiEvent :=
| StError (m : Message)
| StSuccess (m : Message).

Record World := mkWorld {
  db : Database;
  clock : nat -> Datetime;
  clock_reads : nat;
  in_multi : list InLine;
  out_multi : list OutLine;
  ui : list UiEvent
}.

Definition set_db (d : Database) (w : World) : World :=
  mkWorld d (clock w) (clock_reads w) (in_multi w) (out_multi w) (ui w).

Definition set_items (l : list Item) (d : Database) : Database :=
  mkDatabase (tbl_users d) l (tbl_transactions d) (seq_items d) (seq_transactions d).

(** ** A state monad over the world *)

Definition M (A : Type) : Type := World -> A * World.

Definition ret {A} (a : A) : M A := fun w => (a, w).

Definition bind {A B} (c : M A) (k : A -> M B) : M B :=
  fun w => let (a, w') := c w in k a w'.

Notation "x <- c ;; k" := (bind c (fun x => k))
  (at level 61, c at next level, right associativity).
Notation "c ;;; k" := (bind c (fun _ => k))
  (at level 61, right associativity).

(** The world a computation leaves behind, and the value it returns. *)
Definition exec {A} (c : M A) (w : World) : World := snd (c w).
Definition eval {A} (c : M A) (w : World) : A := fst (c w).

(** [for x in l: body x] *)
Fixpoint for_each {A} (l : list A) (body : A -> M unit) : M unit :=
  match l with
  | [] => ret tt
  | x :: r => body x ;;; for_each r body
  end.

(** ** Primitive effects *)

(** [datetime.now()] *)
Definition datetime_now : M Datetime := fun w =>
  (clock w (clock_reads w),
   mkWorld (db w) (clock w) (S (clock_reads w)) (in_multi w) (out_multi w) (ui w)).

Definition st_error (m : Message) : M unit := fun w =>
  (tt, mkWorld (db w) (clock w) (clock_reads w) (in_multi w) (out_multi w)
         (ui w ++ [StError m])%list).

Definition st_success (m : Message) : M unit := fun w =>
  (tt, mkWorld (db w) (clock w) (clock_reads w) (in_multi w) (out_multi w)
         (ui w ++ [StSuccess m])%list).

(** [st.session_state.in_multi = []] *)
Definition clear_in_multi : M unit := fun w =>
  (tt, mkWorld (db w) (clock w) (clock_reads w) [] (out_multi w) (ui w)).

(** [st.session_state.out_multi = []] *)
Definition clear_out_multi : M unit := fun w =>
  (tt, mkWorld (db w) (clock w) (clock_reads w) (in_multi w) [] (ui w)).

(** The filter [.eq("name", name).eq("unit", unit)] on an item row. *)
Definition item_matches (name unit_ : string) (it : Item) : bool :=
  String.eqb (item_name it) name && String.eqb (item_unit it) unit_.

(** [supabase.table("items").select(..).eq("name", name).eq("unit", unit).limit(1)] *)
Definition select_item (name unit_ : string) : M (option Item) := fun w =>
  (find (item_matches name unit_) (tbl_items (db w)), w).

(** [supabase.table("items").update(..).eq("id", id)]: every row with
    that id is rewritten by [f]. *)
Definition update_items_by_id (id : Z) (f : Item -> Item) : M unit := fun w =>
  (tt, set_db (set_items
                 (map (fun it => if item_id it =? id then f it else it)
                      (tbl_items (db w))) (db w)) w).

(** [supabase.table("items").insert(..)]: the row gets the next serial
    id, which is returned ([ins.data[0]["id"]]). *)
Definition insert_item (row : Z -> Item) : M Z := fun w =>
  let d := db w in
  (seq_items d,
   set_db (mkDatabase (tbl_users d) (tbl_items d ++ [row (seq_items d)])%list
             (tbl_transactions d) (seq_items d + 1) (seq_transactions d)) w).

(** [supabase.table("transactions").insert(..)] *)
Definition insert_transaction (row : Z -> Transaction) : M unit := fun w =>
  let d := db w in
  (tt,
   set_db (mkDatabase (tbl_users d) (tbl_items d)
             (tbl_transactions d ++ [row (seq_transactions d)])%list
             (seq_items d) (seq_transactions d + 1)) w).

(** ** Helpers: items and transactions *)

(** [generate_trx_code(trx_type)], with [r] the drawn [random.randint(100, 999)]. *)
Definition generate_trx_code (trx_type_ : string) (r : Z) : M string :=
  now <- datetime_now ;;
  ret ("TRX-" ++ upper trx_type_ ++ "-" ++ strftime_compact now ++ "-" ++ str_Z r).

(** The columns the update of [upsert_item] writes. *)
Definition in_update (new_qty : Q) (category : string) (min_stock : Q)
    (rack_location : string) (expiry_date : option Date) (now : Datetime)
    (it : Item) : Item :=
  mkItem (item_id it) (item_name it) category (item_unit it) (Some new_qty)
    min_stock rack_location expiry_date (item_created_at it) now.

(** The row the insert of [upsert_item] writes. *)
Definition in_insert (name category unit_ : string) (quantity min_stock : Q)
    (rack_location : string) (expiry_date : option Date) (now : Datetime)
    (id : Z) : Item :=
  mkItem id name category unit_ (Some (or0 quantity)) (or0 min_stock)
    rack_location expiry_date now now.

(** The columns the update of [adjust_item_for_out] writes. *)
Definition out_update (new_qty : Q) (now : Datetime) (it : Item) : Item :=
  mkItem (item_id it) (item_name it) (item_category it) (item_unit it)
    (Some new_qty) (item_min_stock it) (item_rack_location it)
    (item_expiry_date it) (item_created_at it) now.

Definition upsert_item (name category unit_ : string) (quantity min_stock : Q)
    (rack_location : string) (expiry_date : option Date) : M Z :=
  let name := strip name in
  now <- datetime_now ;;
  res <- select_item name unit_ ;;
  match res with
  | Some item =>
      let existing_qty := get_or0 (item_quantity item) in
      let new_qty := (existing_qty + or0 quantity)%Q in
      update_items_by_id (item_id item)
        (in_update new_qty category min_stock rack_location expiry_date now) ;;;
      ret (item_id item)
  | None =>
      insert_item
        (in_insert name category unit_ quantity min_stock rack_location
           expiry_date now)
  end.

Definition adjust_item_for_out (name unit_ : string) (quantity : Q)
    : M (option Z * option AdjustError) :=
  res <- select_item name unit_ ;;
  match res with
  | None => ret (None, Some ItemTidakDitemukan)
  | Some item =>
      let existing := get_or0 (item_quantity item) in
      if Qltb existing quantity
      then ret (None, Some (StokTidakCukup existing))
      else
        let new_qty := (existing - quantity)%Q in
        now <- datetime_now ;;
        update_items_by_id (item_id item) (out_update new_qty now) ;;;
        ret (Some (item_id item), None)
  end.

Definition add_transaction_record (trx_type_ : string) (item_id_ : option Z)
    (name : string) (quantity : Q) (unit_ : string)
    (requester supplier : option string) (note bundle_code trx_code_ : string)
    (expiry_date : option Date) : M unit :=
  now <- datetime_now ;;
  insert_transaction
    (fun id => mkTransaction id trx_type_ item_id_ name quantity unit_
                 requester supplier note bundle_code trx_code_ expiry_date now).

(** ** Bulk import *)

(** The value of an [expiry_date] cell. *)
Inductive ExpiryCell :=
| ExpNaN                    (* empty cell *)
| ExpDate (d : Date)        (* a Timestamp, datetime or date *)
| ExpOther (s : string).    (* anything else, handed to [pd.to_datetime] *)

(** A row of the uploaded sheet, by lowered column label.  Text columns
    hold text and number columns hold numbers; [None] is an empty cell
    (NaN).  The cell of a column the sheet does not have is not read.  A
    sheet with text in a number column, on which [float(..)] raises in the
    middle of the loop, is outside this type. *)
Record SheetRow := mkSheetRow {
  cell_name : option string;
  cell_quantity : option Q;
  cell_unit : option string;
  cell_category : option string;
  cell_min_stock : option Q;
  cell_rack_location : option string;
  cell_expiry_date : ExpiryCell
}.

Record Sheet := mkSheet {
  df_columns : list string;
  df_rows : list SheetRow
}.

Inductive ImportResult :=
| RaisedValueError           (* "Excel harus memiliki kolom: name, quantity, unit" *)
| Inserted (n : nat).

(** [str(cell)]: an empty cell prints as "nan". *)
Definition str_cell (c : option string) : string :=
  match c with
  | None => "nan"
  | Some s => s
  end.

(** [float(cell) if not pd.isna(cell) else 0.0] *)
Definition float_cell (c : option Q) : Q :=
  match c with
  | None => 0%Q
  | Some q => q
  end.

Section Handlers.

(** [pd.to_datetime(text).date()] inside [try ... except: None]. *)
Variable to_date : string -> option Date.

Definition has_column (df : Sheet) (key : string) : bool :=
  existsb (fun c => String.eqb (lower c) key) (df_columns df).

Definition import_row (df : Sheet) (row : SheetRow) : M unit :=
  let name := strip (str_cell (cell_name row)) in
  let quantity := float_cell (cell_quantity row) in
  let unit_ := strip (str_cell (cell_unit row)) in
  let category :=
    if has_column df "category" then strip (str_cell (cell_category row)) else "" in
  let min_stock :=
    if has_column df "min_stock" then float_cell (cell_min_stock row) else 0%Q in
  let rack_location :=
    if has_column df "rack_location"
    then strip (str_cell (cell_rack_location row)) else "" in
  let expiry_date :=
    if has_column df "expiry_date" then
      match cell_expiry_date row with
      | ExpNaN => None
      | ExpDate d => Some d
      | ExpOther s => to_date s
      end
    else None in
  _ <- upsert_item name category unit_ quantity min_stock rack_location expiry_date ;;
  ret tt.

Fixpoint import_rows (df : Sheet) (rows : list SheetRow) (inserted : nat) : M nat :=
  match rows with
  | [] => ret inserted
  | row :: rest => import_row df row ;;; import_rows df rest (inserted + 1)%nat
  end.

Definition load_inventory_from_excel (df : Sheet) : M ImportResult :=
  if negb (forallb (has_column df) ["name"; "quantity"; "unit"])
  then ret RaisedValueError
  else
    inserted <- import_rows df (df_rows df) 0%nat ;;
    ret (Inserted inserted).

(** ** Barang Masuk *)

(** Single-item form, [if submitted:].  [st.rerun()] ends the run of the
    script and is the last action of every successful handler. *)
Definition in_single_submit (name unit_ : string) (qty : Q) (category : string)
    (min_stock : Q) (supplier rack_location : string) (expiry_date : option Date)
    (r : Z) : M unit :=
  if py_not name || Qle_bool qty 0 || py_not unit_ then
    st_error MsgInFieldsRequired
  else
    item_id_ <- upsert_item name category unit_ qty min_stock rack_location
                  expiry_date ;;
    trx_code_ <- generate_trx_code "in" r ;;
    add_transaction_record "in" (Some item_id_) name qty unit_ None (Some supplier)
      "Single-item masuk" trx_code_ trx_code_ expiry_date ;;;
    st_success (MsgInDone qty unit_ name trx_code_).

Definition in_line_invalid (it : InLine) : bool :=
  py_not (in_name it) || Qle_bool (in_quantity it) 0 || py_not (in_unit it).

(** The validation loops: the 1-based numbers of the offending lines. *)
Fixpoint bad_rows {A} (invalid : A -> bool) (l : list A) (idx : nat) : list nat :=
  match l with
  | [] => []
  | it :: rest =>
      if invalid it then (idx + 1)%nat :: bad_rows invalid rest (S idx)
      else bad_rows invalid rest (S idx)
  end.

(** The body of the loop of the batch handler: it converts the expiry text
    and does nothing else. *)
Definition in_line_exp (it : InLine) : option Date :=
  if py_not (in_expiry_date it) then None else to_date (in_expiry_date it).

(** Multi-item form, [if submitted:].  The upsert and the transaction
    insert stand after the loop, at the indentation of the [for]: they
    run once, on the loop variables [it] and [exp] as the last iteration
    left them. *)
Definition in_multi_submit (supplier note : string) (r : Z) : M unit :=
  fun w =>
  match in_multi w with
  | [] => st_error MsgNoItems w
  | first :: _ =>
      match bad_rows in_line_invalid (in_multi w) 0 with
      | (_ :: _) as errors => st_error (MsgBadLines errors) w
      | [] =>
          (trx_code_ <- generate_trx_code "in" r ;;
           let bundle := trx_code_ in
           let '(it, exp) :=
             fold_left (fun _ it => (it, in_line_exp it)) (in_multi w) (first, None) in
           st_success MsgSaved ;;;
           item_id_ <- upsert_item (in_name it) (in_category it) (in_unit it)
                         (in_quantity it) (in_min_stock it) (in_rack_location it)
                         exp ;;
           add_transaction_record "in" (Some item_id_) (in_name it) (in_quantity it)
             (in_unit it) None (Some supplier) note bundle trx_code_ exp ;;;
           st_success (MsgInBatchDone trx_code_) ;;;
           clear_in_multi) w
      end
  end.

(** ** Barang Keluar *)

Definition out_single_submit (name unit_ : string) (qty : Q)
    (requester note : string) (r : Z) : M unit :=
  if py_not name || Qle_bool qty 0 || py_not unit_ || py_not requester then
    st_error MsgOutFieldsRequired
  else
    res <- select_item name unit_ ;;
    match res with
    | None => st_error MsgNotInInventory
    | Some row =>
        if Qltb (get_or0 (item_quantity row)) qty then
          st_error (MsgStockShort (item_quantity row) qty)
        else
          res2 <- adjust_item_for_out name unit_ qty ;;
          let '(item_id_, err) := res2 in
          match err with
          | Some e => st_error (MsgAdjust e)
          | None =>
              trx_code_ <- generate_trx_code "out" r ;;
              add_transaction_record "out" item_id_ name qty unit_ (Some requester)
                None note trx_code_ trx_code_ None ;;;
              st_success (MsgOutDone qty unit_ name trx_code_)
          end
    end.

Definition out_line_invalid (it : OutLine) : bool :=
  py_not (out_name it) || Qle_bool (out_quantity it) 0 || py_not (out_unit it).

(** The entry the pre-flight pass appends for one line, if any. *)
Definition shortage_of (res : option Item) (it : OutLine)
    : list (string * Shortage) :=
  match res with
  | None => [(out_name it, ShortMissing)]
  | Some row =>
      if Qltb (get_or0 (item_quantity row)) (out_quantity it)
      then [(out_name it, ShortStock (item_quantity row) (out_quantity it))]
      else []
  end.

(** "check all stocks first" *)
Fixpoint preflight (lines : list OutLine) : M (list (string * Shortage)) :=
  match lines with
  | [] => ret []
  | it :: rest =>
      res <- select_item (out_name it) (out_unit it) ;;
      more <- preflight rest ;;
      ret (shortage_of res it ++ more)%list
  end.

(** One iteration of the apply loop: the error of [adjust_item_for_out]
    is bound to [_] and dropped. *)
Definition out_apply_line (requester bundle trx_code_ : string) (it : OutLine)
    : M unit :=
  res <- adjust_item_for_out (out_name it) (out_unit it) (out_quantity it) ;;
  let '(item_id_, _) := res in
  add_transaction_record "out" item_id_ (out_name it) (out_quantity it)
    (out_unit it) (Some requester) None (out_note it) bundle trx_code_ None.

Definition out_multi_submit (requester note_all : string) (r : Z) : M unit :=
  fun w =>
  match out_multi w with
  | [] => st_error MsgNoItems w
  | _ :: _ =>
      if py_not requester then st_error MsgRequesterRequired w
      else
        match bad_rows out_line_invalid (out_multi w) 0 with
        | (_ :: _) as bad => st_error (MsgBadLines bad) w
        | [] =>
            (insufficient <- preflight (out_multi w) ;;
             match insufficient with
             | _ :: _ => st_error (MsgRejected insufficient)
             | [] =>
                 trx_code_ <- generate_trx_code "out" r ;;
                 let bundle := trx_code_ in
                 for_each (out_multi w)
                   (out_apply_line requester bundle trx_code_) ;;;
                 st_success (MsgOutBatchDone trx_code_) ;;;
                 clear_out_multi
             end) w
        end
  end.

(** ** Pengaturan: reset *)

(** [delete().neq(column, v)] removes the rows whose column differs from
    [v]; the rows that stay are those that carry [v]. *)
Definition reset_db : M unit :=
  fun w =>
  let d := db w in
  st_success MsgResetDone
    (set_db (mkDatabase
               (filter (fun u => String.eqb (username u) "keep_admin") (tbl_users d))
               (filter (fun it => item_id it =? -1) (tbl_items d))
               (filter (fun t => trx_id t =? -1) (tbl_transactions d))
               (seq_items d) (seq_transactions d)) w).

End Handlers.

(** ** Reporting helpers *)

(** A row of the frame built by [load_transactions_df]: the transaction
    and its derived [date] column. *)
Record Movement := mkMovement {
  mv_trx : Transaction;
  mv_date : Date
}.

(** The group key: period label, name, unit, trx_type. *)
Definition Key : Type := string * string * string * string.

Definition key_eq_dec (a b : Key) : {a = b} + {a <> b}.
Proof. repeat decide equality. Defined.

Definition key_eqb (a b : Key) : bool := if key_eq_dec a b then true else false.

(** Tuple order, component by component. *)
Definition key_compare (a b : Key) : comparison :=
  let '(a1, a2, a3, a4) := a in
  let '(b1, b2, b3, b4) := b in
  match String.compare a1 b1 with
  | Eq => match String.compare a2 b2 with
          | Eq => match String.compare a3 b3 with
                  | Eq => String.compare a4 b4
                  | c => c
                  end
          | c => c
          end
  | c => c
  end.

Fixpoint insert_sorted (k : Key) (l : list Key) : list Key :=
  match l with
  | [] => [k]
  | k' :: rest =>
      match key_compare k k' with
      | Gt => k' :: insert_sorted k rest
      | _ => k :: l
      end
  end.

Definition sort_keys (l : list Key) : list Key := fold_right insert_sorted [] l.

(** [.sum()] of a float column, in row order. *)
Definition sum_Q (l : list Q) : Q := fold_left Qplus l 0%Q.

(** A row of the grouped frame after [reset_index()]. *)
Record Total := mkTotal {
  tot_key : Key;
  tot_quantity : Q
}.

(** [df.groupby(keys)['quantity'].sum().reset_index()]: one row per
    distinct key, keys ascending, each with the sum of its rows. *)
Definition groupby_sum (key : Movement -> Key) (df : list Movement) : list Total :=
  map (fun k =>
         mkTotal k (sum_Q (map (fun m => trx_quantity (mv_trx m))
                             (filter (fun m => key_eqb (key m) k) df))))
      (sort_keys (nodup key_eq_dec (map key df))).

Definition week_key (m : Movement) : Key :=
  (strftime_Y_W (mv_date m), trx_name (mv_trx m), trx_unit (mv_trx m),
   trx_type (mv_trx m)).

Definition month_key (m : Movement) : Key :=
  (strftime_Y_m (mv_date m), trx_name (mv_trx m), trx_unit (mv_trx m),
   trx_type (mv_trx m)).

(** [totals_for_period(df, period, date_from, date_to)]; the two dates are
    not used by the body. *)
Definition totals_for_period (df : list Movement) (period : string)
    (date_from date_to : option Date) : list Total :=
  match df with
  | [] => []
  | _ :: _ =>
      if String.eqb period "W" then groupby_sum week_key df
      else if String.eqb period "M" then groupby_sum month_key df
      else []
  end.

(** *** The ISO-8601 week, for comparison

    Stated from the words of the specification ("ISO-week-number"): the
    week with the year's first Thursday is week 1, weeks start on Monday. *)

Definition isoweek1monday (y : Z) : Z :=
  let firstday := days_before_year y + 1 in
  let firstweekday := (firstday + 6) mod 7 in
  let week1monday := firstday - firstweekday in
  if 3 <? firstweekday then week1monday + 7 else week1monday.

(** ISO year and ISO week number of a date ([date.isocalendar()]). *)
Definition isocalendar (d : Date) : Z * Z :=
  let y := year d in
  let today := toordinal d in
  let week := (today - isoweek1monday y) / 7 in
  if week <? 0 then (y - 1, (today - isoweek1monday (y - 1)) / 7 + 1)
  else if (52 <=? week) && (isoweek1monday (y + 1) <=? today) then (y + 1, 1)
  else (y, week + 1).

Definition iso_week (d : Date) : Z := snd (isocalendar d).

(** The week bucket as the specification words it: the year of the date
    and its ISO week number. *)
Definition spec_week_key (m : Movement) : Key :=
  (str_Z (year (mv_date m)) ++ "-" ++ pad2 (iso_week (mv_date m)),
   trx_name (mv_trx m), trx_unit (mv_trx m), trx_type (mv_trx m)).

(** ** Operations and runs *)

(** The user actions that touch the backend.  A batch action carries the
    lines the form has put in the session state. *)
Inductive Op :=
| OpInSingle (name unit_ : string) (qty : Q) (category : string) (min_stock : Q)
    (supplier rack_location : string) (expiry_date : option Date) (r : Z)
| OpInMulti (lines : list InLine) (supplier note : string) (r : Z)
| OpOutSingle (name unit_ : string) (qty : Q) (requester note : string) (r : Z)
| OpOutMulti (lines : list OutLine) (requester note_all : string) (r : Z)
| OpImport (df : Sheet)
| OpReset.

Definition set_in_multi (l : list InLine) (w : World) : World :=
  mkWorld (db w) (clock w) (clock_reads w) l (out_multi w) (ui w).

Definition set_out_multi (l : list OutLine) (w : World) : World :=
  mkWorld (db w) (clock w) (clock_reads w) (in_multi w) l (ui w).

(** One action, answered by the block of its handler.  The block of the
    outbound batch is taken as it is written, on any pending lines; the
    script reaches it with no pending line only, see [out_multi_page] and
    [script_step]. *)
Definition step (to_date : string -> option Date) (o : Op) (w : World) : World :=
  match o with
  | OpInSingle name unit_ qty category min_stock supplier rack expiry r =>
      exec (in_single_submit name unit_ qty category min_stock supplier rack expiry r) w
  | OpInMulti lines supplier note r =>
      exec (in_multi_submit to_date supplier note r) (set_in_multi lines w)
  | OpOutSingle name unit_ qty requester note r =>
      exec (out_single_submit name unit_ qty requester note r) w
  | OpOutMulti lines requester note_all r =>
      exec (out_multi_submit requester note_all r) (set_out_multi lines w)
  | OpImport df => exec (load_inventory_from_excel to_date df) w
  | OpReset => exec reset_db w
  end.

Definition run (to_date : string -> option Date) (ops : list Op) (w : World) : World :=
  fold_left (fun w o => step to_date o w) ops w.

(** An operation of the ledger proper: everything but the bulk import. *)
Definition is_import (o : Op) : bool :=
  match o with OpImport _ => true | _ => false end.

(** ** Reading the state *)

(** The quantity the code sees for a row. *)
Definition current_qty (it : Item) : Q := get_or0 (item_quantity it).

(** What a movement of type [typ] and quantity [q] recorded for item
    [ref] counts for item [id]: inbound counts up, outbound counts down,
    a movement of another item or of no item counts nothing. *)
Definition signed_qty (typ : string) (ref : option Z) (q : Q) (id : Z) : Q :=
  match ref with
  | Some i =>
      if i =? id then
        if String.eqb typ "in" then q
        else if String.eqb typ "out" then (- q)%Q
        else 0%Q
      else 0%Q
  | None => 0%Q
  end.

(** The signed quantity of a transaction row for item [id]. *)
Definition movement_of (id : Z) (t : Transaction) : Q :=
  signed_qty (trx_type t) (trx_item_id t) (trx_quantity t) id.

(** Inbound minus outbound movements recorded for item [id]. *)
Fixpoint ledger_sum (id : Z) (l : list Transaction) : Q :=
  match l with
  | [] => 0%Q
  | t :: rest => (movement_of id t + ledger_sum id rest)%Q
  end.

Definition all_nonneg (d : Database) : Prop :=
  Forall (fun it => (0 <= current_qty it)%Q) (tbl_items d).

Definition sheet_nonneg (df : Sheet) : Prop :=
  Forall (fun row => (0 <= float_cell (cell_quantity row))%Q) (df_rows df).

Definition op_nonneg (o : Op) : Prop :=
  match o with
  | OpImport df => sheet_nonneg df
  | _ => True
  end.

(** ** Requests and checks, as propositions *)

(** The field check of the single-item inbound form passes. *)
Definition in_request_valid (name unit_ : string) (qty : Q) : Prop :=
  name <> "" /\ unit_ <> "" /\ (0 < qty)%Q.

(** The field check of the single-item outbound form passes. *)
Definition out_request_valid (name unit_ : string) (qty : Q) (requester : string)
    : Prop :=
  name <> "" /\ unit_ <> "" /\ (0 < qty)%Q /\ requester <> "".

(** The first item row with this name and unit, if any. *)
Definition lookup_item (d : Database) (name unit_ : string) : option Item :=
  find (item_matches name unit_) (tbl_items d).

(** A line fails the pre-flight pass: its item is missing or short. *)
Definition line_short (d : Database) (it : OutLine) : bool :=
  match lookup_item d (out_name it) (out_unit it) with
  | None => true
  | Some row => Qltb (current_qty row) (out_quantity it)
  end.

(** The list the pre-flight pass builds, as a function of the tables. *)
Definition shortages (d : Database) (lines : list OutLine)
    : list (string * Shortage) :=
  flat_map (fun it => shortage_of (lookup_item d (out_name it) (out_unit it)) it)
    lines.

(** ** Sample data *)

Definition sample_clock (n : nat) : Datetime :=
  mkDatetime (mkDate 2025 1 6) 10 0 (Z.of_nat n).

Definition no_date (s : string) : option Date := None.

Definition sample_world (d : Database) (ins : list InLine) (outs : list OutLine)
    : World :=
  mkWorld d sample_clock 0 ins outs [].

Definition gloves (q : Q) : Item :=
  mkItem 1 "Gloves" "" "box" (Some q) 5 "" None (sample_clock 0) (sample_clock 0).

Definition gloves_db (q : Q) : Database := mkDatabase [] [gloves q] [] 2 1.

Definition mask_db : Database :=
  mkDatabase []
    [mkItem 1 "Mask" "" "box" (Some 7%Q) 0 "" None (sample_clock 0) (sample_clock 0)]
    [] 2 1.

Definition in_line (name unit_ : string) (q : Q) : InLine :=
  mkInLine name unit_ q "" 0 "" "".

Definition out_line (name unit_ : string) (q : Q) : OutLine :=
  mkOutLine name unit_ q "".

(** The world after a successful decrement of [item]. *)
Definition after_adjust (item : Item) (qty : Q) (w : World) : World :=
  exec (now <- datetime_now ;;
        update_items_by_id (item_id item)
          (out_update (current_qty item - qty)%Q now)) w.

Definition fresh_db : Database := mkDatabase [] [] [] 1 1.

(** The loop variables [it] and [exp] after the loop of the inbound batch
    handler. *)
Definition in_multi_loop_vars (to_date : string -> option Date)
    (lines : list InLine) (first : InLine) : InLine * option Date :=
  fold_left (fun _ it => (it, in_line_exp to_date it)) lines (first, None).

(** ** Pre- and postconditions *)

(** From a world that satisfies [P], the computation [c] returns a value
    and a world that satisfy [Q]. *)
Definition hoare {A} (P : World -> Prop) (c : M A) (Q : A -> World -> Prop) : Prop :=
  forall w, P w -> Q (eval c w) (exec c w).

(** [c] keeps [P]. *)
Definition keeps {A} (P : World -> Prop) (c : M A) : Prop :=
  hoare P c (fun _ => P).

Definition nonneg_world (w : World) : Prop := all_nonneg (db w).

(** The success path of the inbound batch handler once the loop has left
    [it]: the code is drawn, then one upsert and one transaction row. *)
Definition in_multi_apply (to_date : string -> option Date)
    (supplier note : string) (r : Z) (it : InLine) : M unit :=
  trx_code_ <- generate_trx_code "in" r ;;
  let exp := in_line_exp to_date it in
  st_success MsgSaved ;;;
  item_id_ <- upsert_item (in_name it) (in_category it) (in_unit it)
                (in_quantity it) (in_min_stock it) (in_rack_location it) exp ;;
  add_transaction_record "in" (Some item_id_) (in_name it) (in_quantity it)
    (in_unit it) None (Some supplier) note trx_code_ trx_code_ exp ;;;
  st_success (MsgInBatchDone trx_code_) ;;;
  clear_in_multi.

(** A sheet with one row that carries a negative quantity. *)
Definition negative_sheet : Sheet :=
  mkSheet ["name"; "quantity"; "unit"]
    [mkSheetRow (Some "Mask") (Some (-5)%Q) (Some "box") None None None ExpNaN].

(** A sheet with one row of five boxes. *)
Definition five_sheet : Sheet :=
  mkSheet ["Name"; "Quantity"; "Unit"]
    [mkSheetRow (Some "Mask") (Some 5%Q) (Some "box") None None None ExpNaN].

(** ** The ledger invariant *)

(** Every item's quantity equals its inbound minus its outbound
    movements in the transaction table, in exact arithmetic. *)
Definition ledger_consistent (d : Database) : Prop :=
  Forall (fun it =>
            (current_qty it == ledger_sum (item_id it) (tbl_transactions d))%Q)
    (tbl_items d).

(** A backend with an empty ledger: no item and no transaction rows, the
    serial counters at a positive value. *)
Definition fresh_backend (d : Database) : Prop :=
  tbl_items d = [] /\ tbl_transactions d = []
  /\ 0 < seq_items d /\ 0 < seq_transactions d.

(** The rewrite of the rows with id [id] that both updates perform. *)
Definition update_rows (id : Z) (f : Item -> Item) (l : list Item) : list Item :=
  map (fun it => if item_id it =? id then f it else it) l.

(** ** Period buckets, as numbers *)

(** A date of the calendar, as far as the week and month fields need it. *)
Definition valid_date (d : Date) : Prop :=
  1 <= month d <= 12 /\ 1 <= day d <= 31.

(** The bucket of a date: (year, %W week) for "W", (year, month) for "M". *)
Definition period_bucket (period : string) (d : Date) : Z * Z :=
  if String.eqb period "W" then (year d, week_W d) else (year d, month d).

(** The key function [totals_for_period] groups by for [period]. *)
Definition period_key (period : string) : Movement -> Key :=
  if String.eqb period "W" then week_key else month_key.

(** Two movements have the same bucket, name, unit and type. *)
Definition same_group (period : string) (a b : Movement) : bool :=
  (fst (period_bucket period (mv_date a)) =? fst (period_bucket period (mv_date b)))
  && (snd (period_bucket period (mv_date a)) =? snd (period_bucket period (mv_date b)))
  && String.eqb (trx_name (mv_trx a)) (trx_name (mv_trx b))
  && String.eqb (trx_unit (mv_trx a)) (trx_unit (mv_trx b))
  && String.eqb (trx_type (mv_trx a)) (trx_type (mv_trx b)).

(** The summed quantity of the movements in the group of [m]. *)
Definition group_total (period : string) (df : list Movement) (m : Movement) : Q :=
  sum_Q (map (fun x => trx_quantity (mv_trx x))
           (filter (fun x => same_group period x m) df)).

Definition range100 : list Z := map Z.of_nat (seq 0 100).

(** A movement of five boxes of masks on a given day. *)
Definition mask_in (d : Date) : Movement :=
  mkMovement
    (mkTransaction 1 "in" (Some 1) "Mask" 5 "box" None (Some "PT Medika") ""
       "TRX-IN-1" "TRX-IN-1" None (mkDatetime d 10 0 0))
    d.

(** ** Accounts *)

Definition set_users (l : list User) (d : Database) : Database :=
  mkDatabase l (tbl_items d) (tbl_transactions d) (seq_items d) (seq_transactions d).

(** [supabase.table("users").select(..).eq("username", name).limit(1)] *)
Definition select_user (name : string) : M (option User) := fun w =>
  (find (fun u => String.eqb (username u) name) (tbl_users (db w)), w).

(** [supabase.table("users").insert(..)].  [username] is the primary key
    of the table: a second row with a stored name is refused and the call
    raises ([false]); otherwise the row is appended ([true]). *)
Definition insert_user (u : User) : M bool := fun w =>
  if existsb (fun x => String.eqb (username x) (username u)) (tbl_users (db w))
  then (false, w)
  else (true, set_db (set_users (tbl_users (db w) ++ [u])%list (db w)) w).

(** What the "Tambah user" form shows. *)
Inductive UserFormMessage :=
| IsiUsernamePassword     (* "Isi username dan password" *)
| UserDitambahkan         (* "User ditambahkan" *)
| GagalMenambahUser.      (* "Gagal menambah user: .." *)

Section Accounts.

(** [hash_pw]: the hex digest of SHA-256, any function of the password. *)
Variable hash_pw : string -> string.

Definition ensure_default_admin : M unit := fun w =>
  match tbl_users (db w) with
  | _ :: _ => (tt, w)
  | [] =>
      (_ <- insert_user (mkUser "admin" (hash_pw "admin123")) ;; ret tt) w
  end.

Definition verify_login (username_ password : string) : M bool :=
  if py_not username_ then ret false
  else
    let pw_hash := hash_pw password in
    q <- select_user username_ ;;
    match q with
    | None => ret false
    | Some u => ret (String.eqb (password_hash u) pw_hash)
    end.

(** Pengaturan, "Tambah user", [if submitted:]; the value is the message
    shown. *)
Definition form_user_submit (new_user new_pw : string) : M UserFormMessage :=
  if py_not new_user || py_not new_pw then ret IsiUsernamePassword
  else
    ok <- insert_user (mkUser new_user (hash_pw new_pw)) ;;
    ret (if ok then UserDitambahkan else GagalMenambahUser).

End Accounts.

(** [get_item_unit(name)]: the unit of the first item of that name. *)
Definition get_item_unit (name : string) : M string :=
  if py_not name then ret ""
  else
    fun w =>
      match find (fun it => String.eqb (item_name it) name) (tbl_items (db w)) with
      | None => ("", w)
      | Some it => (item_unit it, w)
      end.

(** ** Quantities by name and unit *)

(** Item ids are distinct and below the serial counter. *)
Definition items_wf (d : Database) : Prop :=
  Forall (fun it => item_id it < seq_items d) (tbl_items d)
  /\ NoDup (map item_id (tbl_items d)).

(** The quantity the code sees under a name and unit; 0 when there is no
    such item. *)
Definition qty_at (d : Database) (name unit_ : string) : Q :=
  match lookup_item d name unit_ with
  | Some it => current_qty it
  | None => 0%Q
  end.

Definition same_key (n1 u1 n2 u2 : string) : bool :=
  String.eqb n1 n2 && String.eqb u1 u2.

(** No two item rows have the same name and unit. *)
Definition keys_unique (d : Database) : Prop :=
  NoDup (map (fun it => (item_name it, item_unit it)) (tbl_items d)).

(** A row of fresh items for the examples: ids below the counter. *)
Definition gloves_world (q : Q) : World := sample_world (gloves_db q) [] [].

(** A sheet with two rows for the same item, the name padded with blanks
    in the second. *)
Definition twice_sheet : Sheet :=
  mkSheet ["NAME"; "Quantity"; "unit"; "note"]
    [mkSheetRow (Some "Gloves") (Some 3%Q) (Some "box") None None None ExpNaN;
     mkSheetRow (Some " Gloves ") (Some 4%Q) (Some "box") None None None ExpNaN].

(** A sheet without a quantity column, its headers in capitals. *)
Definition short_sheet : Sheet :=
  mkSheet ["Name"; "UNIT"]
    [mkSheetRow (Some "Gloves") None (Some "box") None None None ExpNaN].

(** The transaction table has only grown since it was [l0], and the users
    table is still [u0]. *)
Definition log_extends (l0 : list Transaction) (u0 : list User) (w : World) : Prop :=
  tbl_users (db w) = u0
  /\ exists added, tbl_transactions (db w) = (l0 ++ added)%list.

(** The transaction table is still [l0] and the users table still [u0]. *)
Definition log_same (l0 : list Transaction) (u0 : list User) (w : World) : Prop :=
  tbl_users (db w) = u0 /\ tbl_transactions (db w) = l0.

Definition is_reset (o : Op) : bool :=
  match o with OpReset => true | _ => false end.

(** No stored item name starts or ends with white space. *)
Definition names_trimmed (d : Database) : Prop :=
  Forall (fun it => strip (item_name it) = item_name it) (tbl_items d).

Definition item_key (it : Item) : string * string := (item_name it, item_unit it).

(** A reading of the clock with its fields in range. *)
Definition valid_datetime (t : Datetime) : Prop :=
  valid_date (dt_date t)
  /\ 0 <= dt_hour t < 24 /\ 0 <= dt_minute t < 60 /\ 0 <= dt_second t < 60.

Definition range1000 : list Z := map Z.of_nat (seq 0 1000).

(** A stand-in digest for the examples. *)
Definition toy_hash (pw : string) : string := ("h:" ++ pw)%string.

Definition users_world (users : list User) : World :=
  sample_world (mkDatabase users [] [] 1 1) [] [].

(** ** Barang Keluar, multi-item: one run of the page *)

(** What ends a run of the page before its last line. *)
Inductive PageError :=
| StreamlitAPIException   (* st.button() can't be used in an st.form() *)
| AttributeError.         (* module 'streamlit' has no attribute 'created_atrerun' *)

(** [st.button(..)].  Streamlit does not allow the call inside
    [with st.form(..):] and raises there; elsewhere the answer is whether
    the button was clicked. *)
Definition st_button (in_form clicked : bool) : PageError + bool :=
  if in_form then inl StreamlitAPIException else inr clicked.

(** The line that "Tambah Item Keluar" appends. *)
Definition blank_out_line : OutLine := mkOutLine "" "" 0 "".

(** What the user does before one run of the page: the buttons clicked
    and the values the widgets of line [i] hold. *)
Record OutPageInput := mkOutPageInput {
  click_tambah : bool;
  typed_line : nat -> OutLine;
  click_hapus : nat -> bool;
  click_submit : bool;
  typed_requester : string;
  typed_note_all : string
}.

(** [st.session_state.out_multi.append(line)] *)
Definition append_out_multi (line : OutLine) : M unit := fun w =>
  (tt, set_out_multi (out_multi w ++ [line])%list w).

(** [st.session_state.out_multi.pop(i)] *)
Definition pop_out_multi (i : nat) : M unit := fun w =>
  (tt, set_out_multi (firstn i (out_multi w) ++ skipn (S i) (out_multi w))%list w).

(** [st.session_state.out_multi[i] = line] *)
Definition put_out_multi (i : nat) (line : OutLine) : M unit := fun w =>
  (tt, set_out_multi
         (firstn i (out_multi w) ++ line :: skipn (S i) (out_multi w))%list w).

(** The loop over the pending lines inside [with st.form("out_multi_form"):],
    from line [i] on with [n] lines to go.  Each turn renders the widgets
    of the line and then calls [cols[3].button("Hapus", ..)], inside the
    form; the write of the widget values into the session state comes
    after that call. *)
Fixpoint out_form_lines (inp : OutPageInput) (i n : nat) : M (option PageError) :=
  match n with
  | O => ret None
  | S n' =>
      match st_button true (click_hapus inp i) with
      | inl e => ret (Some e)
      | inr true => pop_out_multi i ;;; ret (Some AttributeError)
      | inr false =>
          put_out_multi i (typed_line inp i) ;;;
          out_form_lines inp (S i) n'
      end
  end.

(** One run of the page in "Multi-item" mode: the "Tambah Item Keluar"
    button, the form with its lines, the submit button and, when it was
    clicked, the handler.  An exception ends the run where it is raised. *)
Definition out_multi_page (inp : OutPageInput) (r : Z) : M (option PageError) :=
  match st_button false (click_tambah inp) with
  | inl e => ret (Some e)
  | inr tambah =>
      (if tambah then append_out_multi blank_out_line else ret tt) ;;;
      fun w =>
        (raised <- out_form_lines inp 0 (List.length (out_multi w)) ;;
         match raised with
         | Some e => ret (Some e)
         | None =>
             if click_submit inp then
               out_multi_submit (typed_requester inp) (typed_note_all inp) r ;;;
               ret None
             else ret None
         end) w
  end.

(** The pending lines the form of a run has to render. *)
Definition lines_to_render (inp : OutPageInput) (w : World) : list OutLine :=
  if click_tambah inp then (out_multi w ++ [blank_out_line])%list else out_multi w.

(** Successive runs of the page. *)
Fixpoint out_multi_pages (runs : list (OutPageInput * Z)) (w : World) : World :=
  match runs with
  | [] => w
  | (inp, r) :: rest => out_multi_pages rest (exec (out_multi_page inp r) w)
  end.

(** The input of a run in which the widgets hold [lines] and no "Hapus"
    is clicked; [tambah] and [submit] say which of the two other buttons
    the user goes for. *)
Definition typed_batch (tambah submit : bool) (lines : list OutLine)
    (requester note_all : string) : OutPageInput :=
  mkOutPageInput tambah (fun i => nth i lines blank_out_line) (fun _ => false)
    submit requester note_all.

(** ** Runs of the script *)

(** One user action as the script answers it.  The outbound batch goes
    through its page: the session holds one pending line, as "Tambah
    Item Keluar" left it, for each line of the batch, the widgets hold
    the lines, and the run looks for the submit button.  Every other
    action is its handler. *)
Definition script_step (to_date : string -> option Date) (o : Op) (w : World)
    : World :=
  match o with
  | OpOutMulti lines requester note_all r =>
      exec (out_multi_page (typed_batch false true lines requester note_all) r)
        (set_out_multi (map (fun _ => blank_out_line) lines) w)
  | _ => step to_date o w
  end.

Definition script_run (to_date : string -> option Date) (ops : list Op) (w : World)
    : World :=
  fold_left (fun w o => script_step to_date o w) ops w.

(** ** The transaction log as a journal *)

(** The row refers to item [id]. *)
Definition refers_to (id : Z) (t : Transaction) : bool :=
  match trx_item_id t with
  | Some i => i =? id
  | None => false
  end.

(** The rows recorded for item [id], in the order of the log. *)
Definition rows_of (id : Z) (log : list Transaction) : list Transaction :=
  filter (refers_to id) log.

(** What a movement of type [typ] and quantity [q] makes of a stored
    quantity, with the operations of the code: [upsert_item] inserts
    [quantity or 0] when there is no row yet and writes
    [(existing or 0) + (quantity or 0)] otherwise; [adjust_item_for_out]
    writes [(existing or 0) - quantity]. *)
Definition book (typ : string) (q : Q) (stored : option Q) : option Q :=
  if String.eqb typ "in" then
    match stored with
    | None => Some (or0 q)
    | Some _ => Some (get_or0 stored + or0 q)%Q
    end
  else Some (get_or0 stored - q)%Q.

(** The rows booked one after the other, starting with no item row. *)
Definition running_total (rows : list Transaction) : option Q :=
  fold_left (fun stored t => book (trx_type t) (trx_quantity t) stored) rows None.

(** An item of the table has this id, name and unit. *)
Definition owner (d : Database) (id : Z) (name unit_ : string) : Prop :=
  exists it, In it (tbl_items d)
             /\ item_id it = id /\ item_name it = name /\ item_unit it = unit_.

(** The row is an inbound or outbound movement of an item of the table:
    it carries the item's id and unit, and its name is the item's name up
    to surrounding white space. *)
Definition row_recorded (d : Database) (t : Transaction) : Prop :=
  (trx_type t = "in" \/ trx_type t = "out")
  /\ exists id, trx_item_id t = Some id
                /\ owner d id (strip (trx_name t)) (trx_unit t).

(** The rows whose trimmed name and unit are these, in the order of the
    log. *)
Definition rows_named (name unit_ : string) (log : list Transaction)
    : list Transaction :=
  filter (fun t => same_key (strip (trx_name t)) (trx_unit t) name unit_) log.

(** The item has at least one row, its rows by id are its rows by name
    and unit, and its stored quantity is the running total of its rows. *)
Definition item_journaled (d : Database) (it : Item) : Prop :=
  rows_of (item_id it) (tbl_transactions d) <> []
  /\ rows_of (item_id it) (tbl_transactions d)
     = rows_named (item_name it) (item_unit it) (tbl_transactions d)
  /\ item_quantity it = running_total (rows_of (item_id it) (tbl_transactions d)).

(** Items are distinct by id and by name and unit, every row belongs to
    an item, and every item's quantity is the running total of its rows. *)
Definition journal_ok (d : Database) : Prop :=
  NoDup (map item_id (tbl_items d))
  /\ keys_unique d
  /\ Forall (row_recorded d) (tbl_transactions d)
  /\ Forall (item_journaled d) (tbl_items d).

(** A quantity write whose transaction row is still to be inserted. *)
Definition Pending : Type := option (Z * string * Q).

Definition pending_total (pend : Pending) (id : Z) (stored : option Q)
    : option Q :=
  match pend with
  | Some (i, typ, q) => if i =? id then book typ q stored else stored
  | None => stored
  end.

(** The invariant of the runs, between a quantity write and the insert of
    its row ([pend]) and at rest ([None]): ids are positive, distinct and
    below the serial counters, names are trimmed, rows belong to items,
    and quantities are the running totals. *)
Definition journal_inv (pend : Pending) (d : Database) : Prop :=
  (0 < seq_items d /\ 0 < seq_transactions d)
  /\ NoDup (map item_id (tbl_items d))
  /\ Forall (fun it =>
               0 < item_id it < seq_items d
               /\ strip (item_name it) = item_name it
               /\ item_quantity it <> None
               /\ item_quantity it
                  = pending_total pend (item_id it)
                      (running_total (rows_of (item_id it) (tbl_transactions d))))
       (tbl_items d)
  /\ Forall (fun t => 0 < trx_id t < seq_transactions d /\ row_recorded d t)
       (tbl_transactions d).

(** What holds after [adjust_item_for_out name unit quantity], by result. *)
Definition adjust_journal_post (name unit_ : string) (quantity : Q)
    (res : option Z * option AdjustError) (w : World) : Prop :=
  match res with
  | (Some id, None) =>
      journal_inv (Some (id, "out", quantity)) (db w)
      /\ owner (db w) id (strip name) unit_
  | (None, Some _) => journal_inv None (db w)
  | _ => False
  end.

(** * Properties *)

(** ** Basic facts *)

Lemma bind_run {A B} (c : M A) (k : A -> M B) (w : World) :
  bind c k w = k (eval c w) (exec c w).
Proof. unfold bind, eval, exec. destruct (c w); reflexivity. Qed.

Lemma py_not_false (s : string) : py_not s = false <-> s <> "".
Proof. destruct s; simpl; split; intro H; congruence. Qed.

Lemma Qle_bool_false (q : Q) : Qle_bool q 0 = false <-> (0 < q)%Q.
Proof.
  split; intro H.
  - apply Qnot_le_lt. intro Hle. apply Qle_bool_iff in Hle. congruence.
  - destruct (Qle_bool q 0) eqn:E; [|reflexivity].
    apply Qle_bool_iff in E. exfalso. apply (Qlt_not_le _ _ H E).
Qed.

Lemma Qltb_true (a b : Q) : Qltb a b = true <-> (a < b)%Q.
Proof.
  unfold Qltb. rewrite negb_true_iff. split; intro H.
  - apply Qnot_le_lt. intro Hle. apply Qle_bool_iff in Hle. congruence.
  - destruct (Qle_bool b a) eqn:E; [|reflexivity].
    apply Qle_bool_iff in E. exfalso. apply (Qlt_not_le _ _ H E).
Qed.

Lemma Qltb_false (a b : Q) : Qltb a b = false <-> (b <= a)%Q.
Proof.
  unfold Qltb. rewrite negb_false_iff. apply Qle_bool_iff.
Qed.


Lemma or0_eq (q : Q) : (or0 q == q)%Q.
Proof.
  unfold or0. destruct (Qeq_bool q 0) eqn:E; [|reflexivity].
  apply Qeq_bool_iff in E. symmetry. exact E.
Qed.

Lemma in_request_valid_check (name unit_ : string) (qty : Q) :
  in_request_valid name unit_ qty ->
  py_not name || Qle_bool qty 0 || py_not unit_ = false.
Proof.
  intros (Hn & Hu & Hq).
  apply py_not_false in Hn. apply py_not_false in Hu. apply Qle_bool_false in Hq.
  rewrite Hn, Hu, Hq. reflexivity.
Qed.

Lemma out_request_valid_check (name unit_ : string) (qty : Q) (requester : string) :
  out_request_valid name unit_ qty requester ->
  py_not name || Qle_bool qty 0 || py_not unit_ || py_not requester = false.
Proof.
  intros (Hn & Hu & Hq & Hr).
  apply py_not_false in Hn. apply py_not_false in Hu. apply py_not_false in Hr.
  apply Qle_bool_false in Hq.
  rewrite Hn, Hu, Hq, Hr. reflexivity.
Qed.

Lemma bad_rows_nil {A} (invalid : A -> bool) (l : list A) (idx : nat) :
  bad_rows invalid l idx = [] <-> Forall (fun x => invalid x = false) l.
Proof.
  revert idx. induction l as [|x l IH]; intro idx; simpl.
  - split; auto.
  - destruct (invalid x) eqn:E.
    + split; [discriminate|]. intro H. inversion H; congruence.
    + rewrite IH. split; intro H.
      * constructor; assumption.
      * inversion H; assumption.
Qed.

Lemma bad_rows_exists {A} (invalid : A -> bool) (l : list A) (idx : nat) :
  Exists (fun x => invalid x = true) l -> bad_rows invalid l idx <> [].
Proof.
  intros Hex Hnil. apply bad_rows_nil in Hnil.
  apply Exists_exists in Hex. destruct Hex as (x & Hin & Hx).
  rewrite Forall_forall in Hnil. specialize (Hnil x Hin). congruence.
Qed.

(** The pre-flight pass reads and never writes. *)
Lemma preflight_pure (lines : list OutLine) (w : World) :
  preflight lines w = (shortages (db w) lines, w).
Proof.
  induction lines as [|it lines IH]; simpl.
  - reflexivity.
  - unfold bind, select_item at 1. simpl. rewrite IH. reflexivity.
Qed.

Lemma shortage_of_nil (d : Database) (it : OutLine) :
  shortage_of (lookup_item d (out_name it) (out_unit it)) it = []
  <-> line_short d it = false.
Proof.
  unfold line_short, shortage_of, current_qty.
  destruct (lookup_item d (out_name it) (out_unit it)) as [row|].
  - destruct (Qltb (get_or0 (item_quantity row)) (out_quantity it));
      split; intro H; congruence.
  - split; intro H; discriminate.
Qed.

Lemma shortages_nil (d : Database) (lines : list OutLine) :
  shortages d lines = [] <-> Forall (fun it => line_short d it = false) lines.
Proof.
  induction lines as [|it lines IH]; simpl.
  - split; auto.
  - rewrite Forall_cons_iff, <- IH, <- shortage_of_nil.
    split.
    + intro H. apply app_eq_nil in H. exact H.
    + intros [H1 H2]. rewrite H1, H2. reflexivity.
Qed.

(** ** Batch submissions: the check phase *)

(** C2. If a line of a batch fails the field check (empty name, empty
    unit, quantity not above 0), or a line of an outbound batch fails the
    pre-flight check (item missing or stock short), the handler leaves the
    backend as it found it: no item row changes and no transaction row is
    added, for any line of the batch. *)
Theorem batch_rejected_no_mutation
    (to_date : string -> option Date) (supplier note requester note_all : string)
    (r : Z) (w : World) :
  (Exists (fun it => in_line_invalid it = true) (in_multi w) ->
   db (exec (in_multi_submit to_date supplier note r) w) = db w)
  /\
  (Exists (fun it => out_line_invalid it = true) (out_multi w)
   \/ Exists (fun it => line_short (db w) it = true) (out_multi w) ->
   db (exec (out_multi_submit requester note_all r) w) = db w).
Proof.
  split.
  - intro Hex. unfold exec, in_multi_submit.
    pose proof (bad_rows_exists _ _ 0%nat Hex) as Hbad.
    destruct (in_multi w) as [|first rest] eqn:El; [reflexivity|].
    destruct (bad_rows in_line_invalid (first :: rest) 0) as [|e errors];
      [congruence | reflexivity].
  - intro Hex. unfold exec, out_multi_submit.
    destruct (out_multi w) as [|first rest] eqn:El; [reflexivity|].
    destruct (py_not requester); [reflexivity|].
    destruct (bad_rows out_line_invalid (first :: rest) 0) as [|e bad] eqn:Eb;
      [|reflexivity].
    unfold bind. rewrite preflight_pure.
    destruct (shortages (db w) (first :: rest)) as [|x ins] eqn:Es; [|reflexivity].
    exfalso. destruct Hex as [Hex|Hex].
    + exact (bad_rows_exists _ _ 0%nat Hex Eb).
    + apply shortages_nil in Es. apply Exists_exists in Hex.
      destruct Hex as (x & Hin & Hx).
      rewrite Forall_forall in Es. specialize (Es x Hin). congruence.
Qed.

(** The scenario of the specification, and its outbound counterpart: a
    batch with an empty name, and a batch that asks for more than is in
    stock. *)
Lemma batch_rejected_no_mutation_witness :
  db (exec (in_multi_submit no_date "PT Medika" "" 123)
        (sample_world mask_db [in_line "Mask" "box" 5; in_line "" "box" 3] []))
  = mask_db
  /\
  db (exec (out_multi_submit "Alice" "" 123)
        (sample_world mask_db [] [out_line "Mask" "box" 5; out_line "Mask" "box" 8]))
  = mask_db.
Proof.
  split.
  - apply (proj1 (batch_rejected_no_mutation no_date "PT Medika" "" "Alice" "" 123
             (sample_world mask_db [in_line "Mask" "box" 5; in_line "" "box" 3] []))).
    simpl. apply Exists_cons_tl. apply Exists_cons_hd. reflexivity.
  - apply (proj2 (batch_rejected_no_mutation no_date "PT Medika" "" "Alice" "" 123
             (sample_world mask_db []
                [out_line "Mask" "box" 5; out_line "Mask" "box" 8]))).
    right. simpl. apply Exists_cons_tl. apply Exists_cons_hd. reflexivity.
Defined.

(** ** The decrement and the upsert, step by step *)

Lemma find_map_keep {A} (p : A -> bool) (g : A -> A) (l : list A) :
  (forall x, p (g x) = p x) ->
  find p (map g l) = option_map g (find p l).
Proof.
  intro Hg. induction l as [|x l IH]; simpl; [reflexivity|].
  rewrite Hg. destruct (p x); [reflexivity | exact IH].
Qed.

Lemma lookup_after_update (d : Database) (name unit_ : string) (id : Z)
    (f : Item -> Item) (item : Item) :
  (forall it, item_name (f it) = item_name it /\ item_unit (f it) = item_unit it) ->
  lookup_item d name unit_ = Some item ->
  item_id item = id ->
  find (item_matches name unit_)
    (map (fun it => if item_id it =? id then f it else it) (tbl_items d))
  = Some (f item).
Proof.
  intros Hf Hl Hid. unfold lookup_item in Hl.
  rewrite find_map_keep.
  - rewrite Hl. simpl. rewrite Hid, Z.eqb_refl. reflexivity.
  - intro it. destruct (item_id it =? id); [|reflexivity].
    unfold item_matches. destruct (Hf it) as [-> ->]. reflexivity.
Qed.

Lemma adjust_missing (name unit_ : string) (qty : Q) (w : World) :
  lookup_item (db w) name unit_ = None ->
  adjust_item_for_out name unit_ qty w = ((None, Some ItemTidakDitemukan), w).
Proof.
  intro Hl. unfold adjust_item_for_out, bind, select_item.
  unfold lookup_item in Hl. rewrite Hl. reflexivity.
Qed.

Lemma adjust_short (name unit_ : string) (qty : Q) (w : World) (item : Item) :
  lookup_item (db w) name unit_ = Some item ->
  (current_qty item < qty)%Q ->
  adjust_item_for_out name unit_ qty w
  = ((None, Some (StokTidakCukup (current_qty item))), w).
Proof.
  intros Hl Hlt. unfold adjust_item_for_out, bind, select_item.
  unfold lookup_item in Hl. rewrite Hl.
  apply Qltb_true in Hlt. unfold current_qty in Hlt. rewrite Hlt. reflexivity.
Qed.

Lemma adjust_ok (name unit_ : string) (qty : Q) (w : World) (item : Item) :
  lookup_item (db w) name unit_ = Some item ->
  (qty <= current_qty item)%Q ->
  adjust_item_for_out name unit_ qty w
  = ((Some (item_id item), None), after_adjust item qty w).
Proof.
  intros Hl Hle. unfold adjust_item_for_out, bind, select_item.
  unfold lookup_item in Hl. rewrite Hl.
  apply Qltb_false in Hle. unfold current_qty in Hle. rewrite Hle. reflexivity.
Qed.

(** ** Barang Keluar, single item *)

(** C3. An outbound recording on an existing item (first row with that
    name and unit) whose current quantity is below the requested one
    fails with the insufficient-stock error: [adjust_item_for_out] returns
    it and writes nothing, and the submit handler of a well-formed request
    shows it, leaves every item row as it was and adds no transaction
    row. *)
Theorem outbound_insufficient_stock
    (name unit_ : string) (qty : Q) (requester note : string) (r : Z)
    (w : World) (item : Item) :
  lookup_item (db w) name unit_ = Some item ->
  (current_qty item < qty)%Q ->
  adjust_item_for_out name unit_ qty w
  = ((None, Some (StokTidakCukup (current_qty item))), w)
  /\
  (out_request_valid name unit_ qty requester ->
   let w' := exec (out_single_submit name unit_ qty requester note r) w in
   db w' = db w
   /\ ui w' = (ui w ++ [StError (MsgStockShort (item_quantity item) qty)])%list).
Proof.
  intros Hl Hlt. split.
  - apply adjust_short; assumption.
  - intros Hv w'. subst w'. unfold exec, out_single_submit.
    rewrite (out_request_valid_check _ _ _ _ Hv).
    unfold bind, select_item. unfold lookup_item in Hl. rewrite Hl.
    apply Qltb_true in Hlt. unfold current_qty in Hlt. rewrite Hlt.
    split; reflexivity.
Qed.

(** The second step of the Gloves scenario: 6 in stock, 10 requested. *)
Lemma outbound_insufficient_stock_witness :
  adjust_item_for_out "Gloves" "box" 10 (sample_world (gloves_db 6) [] [])
  = ((None, Some (StokTidakCukup 6)), sample_world (gloves_db 6) [] [])
  /\
  db (exec (out_single_submit "Gloves" "box" 10 "Bob" "" 123)
        (sample_world (gloves_db 6) [] []))
  = gloves_db 6.
Proof.
  destruct (outbound_insufficient_stock "Gloves" "box" 10 "Bob" "" 123
              (sample_world (gloves_db 6) [] []) (gloves 6))
    as [Hadj Hsub].
  - reflexivity.
  - reflexivity.
  - split.
    + exact Hadj.
    + apply Hsub. repeat split; try discriminate.
Defined.

(** C5. An outbound recording of a well-formed request on an existing
    item whose current quantity is at least the requested one: the item's
    quantity becomes the old one minus the requested one, its
    [updated_at] becomes the clock reading taken during the decrement, no
    row with another id changes, and one "out" transaction row with the
    requested quantity is appended. *)
Theorem outbound_sufficient_stock
    (name unit_ : string) (qty : Q) (requester note : string) (r : Z)
    (w : World) (item : Item) :
  out_request_valid name unit_ qty requester ->
  lookup_item (db w) name unit_ = Some item ->
  (qty <= current_qty item)%Q ->
  let w' := exec (out_single_submit name unit_ qty requester note r) w in
  let now := clock w (clock_reads w) in
  let item' := out_update (current_qty item - qty)%Q now item in
  lookup_item (db w') name unit_ = Some item'
  /\ item_quantity item' = Some (current_qty item - qty)%Q
  /\ item_updated_at item' = now
  /\ tbl_items (db w')
     = map (fun it => if item_id it =? item_id item
                      then out_update (current_qty item - qty)%Q now it else it)
         (tbl_items (db w))
  /\ exists t,
       tbl_transactions (db w') = (tbl_transactions (db w) ++ [t])%list
       /\ trx_type t = "out"
       /\ trx_quantity t = qty
       /\ trx_item_id t = Some (item_id item)
       /\ trx_name t = name
       /\ trx_unit t = unit_
       /\ trx_requester t = Some requester
       /\ trx_bundle_code t = trx_code t.
Proof.
  intros Hv Hl Hle w' now item'.
  assert (Hw' : w' = exec (trx_code_ <- generate_trx_code "out" r ;;
                           add_transaction_record "out" (Some (item_id item)) name
                             qty unit_ (Some requester) None note trx_code_
                             trx_code_ None ;;;
                           st_success (MsgOutDone qty unit_ name trx_code_))
                       (after_adjust item qty w)).
  { subst w'. unfold exec at 1, out_single_submit.
    rewrite (out_request_valid_check _ _ _ _ Hv).
    unfold bind at 1, select_item at 1.
    pose proof Hl as Hl'. unfold lookup_item in Hl'. rewrite Hl'.
    pose proof Hle as Hle'. apply Qltb_false in Hle'.
    unfold current_qty in Hle'. rewrite Hle'.
    unfold bind at 1. rewrite (adjust_ok _ _ _ _ _ Hl Hle). reflexivity. }
  assert (Hitems : tbl_items (db w')
     = map (fun it => if item_id it =? item_id item
                      then out_update (current_qty item - qty)%Q now it else it)
         (tbl_items (db w))).
  { rewrite Hw'. reflexivity. }
  split; [|split; [reflexivity|split; [reflexivity|split; [exact Hitems|]]]].
  - unfold lookup_item. rewrite Hitems.
    apply lookup_after_update; [|exact Hl|reflexivity].
    intro it. split; reflexivity.
  - rewrite Hw'. eexists. split; [reflexivity|]. repeat split.
Qed.

(** The first step of the Gloves scenario: 10 in stock, 4 requested. *)
Lemma outbound_sufficient_stock_witness :
  exists item',
    lookup_item
      (db (exec (out_single_submit "Gloves" "box" 4 "Alice" "" 123)
             (sample_world (gloves_db 10) [] [])))
      "Gloves" "box" = Some item'
    /\ item_quantity item' = Some (10 - 4)%Q.
Proof.
  destruct (outbound_sufficient_stock "Gloves" "box" 4 "Alice" "" 123
              (sample_world (gloves_db 10) [] []) (gloves 10))
    as (H1 & H2 & _).
  - repeat split; try discriminate.
  - reflexivity.
  - discriminate.
  - eexists. split; [exact H1 | exact H2].
Defined.

(** ** Barang Masuk, single item *)

Lemma upsert_found (name category unit_ : string) (quantity min_stock : Q)
    (rack_location : string) (expiry_date : option Date) (w : World) (item : Item) :
  lookup_item (db w) (strip name) unit_ = Some item ->
  upsert_item name category unit_ quantity min_stock rack_location expiry_date w
  = (item_id item,
     exec (now <- datetime_now ;;
           update_items_by_id (item_id item)
             (in_update (current_qty item + or0 quantity)%Q category min_stock
                rack_location expiry_date now)) w).
Proof.
  intro Hl. unfold upsert_item, bind, select_item, datetime_now. simpl.
  unfold lookup_item in Hl. rewrite Hl. reflexivity.
Qed.

Lemma upsert_absent (name category unit_ : string) (quantity min_stock : Q)
    (rack_location : string) (expiry_date : option Date) (w : World) :
  lookup_item (db w) (strip name) unit_ = None ->
  upsert_item name category unit_ quantity min_stock rack_location expiry_date w
  = (seq_items (db w),
     exec (now <- datetime_now ;;
           insert_item (in_insert (strip name) category unit_ quantity min_stock
                          rack_location expiry_date now)) w).
Proof.
  intro Hl. unfold upsert_item, bind, select_item, datetime_now. simpl.
  unfold lookup_item in Hl. rewrite Hl. reflexivity.
Qed.



(** ** Barang Masuk, batch *)

Lemma in_multi_loop_vars_last (to_date : string -> option Date)
    (lines : list InLine) (first : InLine) :
  lines <> [] ->
  in_multi_loop_vars to_date lines first
  = (last lines first, in_line_exp to_date (last lines first)).
Proof.
  unfold in_multi_loop_vars.
  generalize (first, @None Date) as acc.
  induction lines as [|x l IH]; intros acc Hne; [congruence|].
  destruct l as [|y l'].
  - reflexivity.
  - change (fold_left (fun _ it => (it, in_line_exp to_date it)) (x :: y :: l') acc)
      with (fold_left (fun _ it => (it, in_line_exp to_date it)) (y :: l')
              (x, in_line_exp to_date x)).
    rewrite IH by discriminate. reflexivity.
Qed.

Lemma last_default {A} (l : list A) (a b : A) : l <> [] -> last l a = last l b.
Proof.
  induction l as [|x l IH]; intro Hne; [congruence|].
  destruct l as [|y l']; [reflexivity|].
  change (last (y :: l') a = last (y :: l') b). apply IH. discriminate.
Qed.

(** What the batch handler does on a batch that passes the field check:
    one upsert and one transaction row, for the last line. *)
Lemma in_multi_submit_valid (to_date : string -> option Date)
    (supplier note : string) (r : Z) (w : World) :
  in_multi w <> [] ->
  Forall (fun it => in_line_invalid it = false) (in_multi w) ->
  forall first,
  exec (in_multi_submit to_date supplier note r) w
  = exec (in_multi_apply to_date supplier note r (last (in_multi w) first)) w.
Proof.
  intros Hne Hall first. unfold exec, in_multi_submit, in_multi_apply.
  apply (bad_rows_nil _ _ 0%nat) in Hall.
  destruct (in_multi w) as [|x l] eqn:El; [congruence|].
  rewrite Hall.
  fold (in_multi_loop_vars to_date (x :: l) x).
  rewrite in_multi_loop_vars_last by discriminate.
  rewrite (last_default (x :: l) first x) by discriminate.
  unfold bind at 1 6. destruct (generate_trx_code "in" r w) as [c w1].
  reflexivity.
Qed.

(** On every batch that passes the field check the handler appends one
    transaction row, that of the last line, whatever the number of lines. *)
Lemma in_multi_submit_one_row (to_date : string -> option Date)
    (supplier note : string) (r : Z) (w : World) (first : InLine) :
  in_multi w <> [] ->
  Forall (fun it => in_line_invalid it = false) (in_multi w) ->
  exists t,
    tbl_transactions (db (exec (in_multi_submit to_date supplier note r) w))
    = (tbl_transactions (db w) ++ [t])%list
    /\ trx_name t = in_name (last (in_multi w) first)
    /\ trx_quantity t = in_quantity (last (in_multi w) first).
Proof.
  intros Hne Hall.
  rewrite (in_multi_submit_valid to_date supplier note r w Hne Hall first).
  generalize (last (in_multi w) first) as it. intro it.
  unfold in_multi_apply, exec.
  rewrite bind_run. rewrite bind_run. rewrite bind_run.
  set (w1 := exec (st_success MsgSaved) (exec (generate_trx_code "in" r) w)).
  assert (Hw1 : tbl_transactions (db w1) = tbl_transactions (db w)) by reflexivity.
  assert (Hup : tbl_transactions
                  (db (exec (upsert_item (in_name it) (in_category it) (in_unit it)
                               (in_quantity it) (in_min_stock it)
                               (in_rack_location it) (in_line_exp to_date it)) w1))
                = tbl_transactions (db w1)).
  { destruct (lookup_item (db w1) (strip (in_name it)) (in_unit it)) eqn:Hl.
    - unfold exec at 1. rewrite (upsert_found _ _ _ _ _ _ _ _ _ Hl). reflexivity.
    - unfold exec at 1. rewrite (upsert_absent _ _ _ _ _ _ _ _ Hl). reflexivity. }
  eexists. split; [|split].
  - simpl. rewrite Hup, Hw1. reflexivity.
  - reflexivity.
  - reflexivity.
Qed.

(** C1, on the code.  A batch of two lines that both pass the field
    check: the first success message is shown while the backend is still
    untouched; the handler then writes one item row and one transaction
    row, both for the second line, and nothing for the first. *)
Theorem in_multi_two_lines_keeps_last :
  let w := sample_world fresh_db
             [in_line "Mask" "box" 5; in_line "Gloves" "box" 3] [] in
  let w' := exec (in_multi_submit no_date "PT Medika" "" 123) w in
  let code := "TRX-IN-20250106-100000-123" in
  let shown := exec (generate_trx_code "in" 123 ;;; st_success MsgSaved) w in
  Forall (fun it => in_line_invalid it = false) (in_multi w)
  /\ ui shown = [StSuccess MsgSaved] /\ db shown = fresh_db
  /\ w' = exec (item_id_ <- upsert_item "Gloves" "" "box" 3 0 "" None ;;
                add_transaction_record "in" (Some item_id_) "Gloves" 3 "box" None
                  (Some "PT Medika") "" code code None ;;;
                st_success (MsgInBatchDone code) ;;;
                clear_in_multi) shown
  /\ map item_name (tbl_items (db w')) = ["Gloves"]
  /\ map trx_name (tbl_transactions (db w')) = ["Gloves"]
  /\ lookup_item (db w') "Mask" "box" = None
  /\ ui w' = [StSuccess MsgSaved; StSuccess (MsgInBatchDone code)].
Proof.
  simpl. repeat split.
  repeat constructor.
Qed.

(** ** Barang Keluar, batch *)

(** With a line pending, the first turn of the loop of the form ends the
    run: nothing is written before the "Hapus" button is asked for. *)
Lemma out_form_lines_raises (inp : OutPageInput) (i n : nat) (w : World) :
  out_form_lines inp i (S n) w = (Some StreamlitAPIException, w).
Proof. reflexivity. Qed.

Lemma out_multi_submit_nil (requester note_all : string) (r : Z) (w : World) :
  out_multi w = [] ->
  out_multi_submit requester note_all r w = st_error MsgNoItems w.
Proof. intro E. unfold out_multi_submit. rewrite E. reflexivity. Qed.

(** A run of the page, by the lines its form has to render. *)
Lemma out_multi_page_run (inp : OutPageInput) (r : Z) (w : World) :
  out_multi_page inp r w
  = match lines_to_render inp w with
    | _ :: _ =>
        (Some StreamlitAPIException, set_out_multi (lines_to_render inp w) w)
    | [] =>
        if click_submit inp then (None, exec (st_error MsgNoItems) w)
        else (None, w)
    end.
Proof.
  unfold out_multi_page, st_button, lines_to_render, bind, append_out_multi, ret.
  destruct (click_tambah inp).
  - destruct (out_multi w) as [|x l]; reflexivity.
  - destruct (out_multi w) as [|x l] eqn:E.
    + simpl. destruct (click_submit inp); [|reflexivity].
      rewrite (out_multi_submit_nil _ _ _ _ E). reflexivity.
    + simpl. destruct w; simpl in *. rewrite E. reflexivity.
Qed.

Lemma out_multi_page_db (inp : OutPageInput) (r : Z) (w : World) :
  db (exec (out_multi_page inp r) w) = db w.
Proof.
  unfold exec. rewrite out_multi_page_run.
  destruct (lines_to_render inp w); [|reflexivity].
  destruct (click_submit inp); reflexivity.
Qed.

Lemma out_multi_page_lines (inp : OutPageInput) (r : Z) (w : World) :
  out_multi (exec (out_multi_page inp r) w) = lines_to_render inp w.
Proof.
  unfold exec. rewrite out_multi_page_run.
  destruct (lines_to_render inp w) eqn:E; [|reflexivity].
  unfold lines_to_render in E.
  destruct (click_tambah inp).
  - destruct (out_multi w); discriminate.
  - destruct (click_submit inp); exact E.
Qed.

(** The pending lines are blank ones: a run can only append the blank
    line, since the write of the widget values is never reached. *)
Lemma out_multi_pages_blank (runs : list (OutPageInput * Z)) (w : World) :
  Forall (fun l => l = blank_out_line) (out_multi w) ->
  Forall (fun l => l = blank_out_line) (out_multi (out_multi_pages runs w)).
Proof.
  revert w. induction runs as [|[inp r] runs IH]; intros w Hw; simpl.
  - exact Hw.
  - apply IH. rewrite out_multi_page_lines. unfold lines_to_render.
    destruct (click_tambah inp); [|exact Hw].
    apply Forall_app. split; [exact Hw|]. repeat constructor.
Qed.

Lemma out_multi_pages_db (runs : list (OutPageInput * Z)) (w : World) :
  db (out_multi_pages runs w) = db w.
Proof.
  revert w. induction runs as [|[inp r] runs IH]; intro w; simpl.
  - reflexivity.
  - rewrite IH. apply out_multi_page_db.
Qed.

(** X8.  The pending lines of the outbound batch are blank lines.  From a
    session without pending lines, whatever the user types and clicks on
    any number of runs of the page, every pending line is the line
    "Tambah Item Keluar" appends: the widget values are never written
    into the session state. *)
Theorem out_multi_lines_stay_blank (runs : list (OutPageInput * Z)) (w : World) :
  out_multi w = [] ->
  Forall (fun l => l = blank_out_line) (out_multi (out_multi_pages runs w)).
Proof.
  intro Hw. apply out_multi_pages_blank. rewrite Hw. constructor.
Qed.

(** A line is added and filled with six boxes of gloves. *)
Lemma out_multi_lines_stay_blank_witness :
  Forall (fun l => l = blank_out_line)
    (out_multi
       (out_multi_pages
          [(typed_batch true false [] "" "", 123);
           (typed_batch false true [out_line "Gloves" "box" 6] "Alice" "", 123)]
          (gloves_world 10))).
Proof.
  apply (out_multi_lines_stay_blank
           [(typed_batch true false [] "" "", 123);
            (typed_batch false true [out_line "Gloves" "box" 6] "Alice" "", 123)]
           (gloves_world 10)).
  reflexivity.
Defined.

(** C9, on the code.  No batch with a line reaches the pre-flight pass.
    A run of the multi-item "Barang Keluar" page that has a pending line
    to render ends with the exception Streamlit raises for the "Hapus"
    button inside the form: the submit button and the handler with its
    pre-flight pass and apply loop are not reached, nothing is shown and
    the pending lines stay as they were.  With no pending line a submit is
    answered "Tidak ada item untuk disimpan".  So no sequence of runs of
    the page changes the backend: no decrement is made and no "out" row is
    appended. *)
Theorem out_multi_page_never_books
    (runs : list (OutPageInput * Z)) (inp : OutPageInput) (r : Z) (w : World) :
  db (out_multi_pages runs w) = db w
  /\ (let w' := exec (out_multi_page inp r) w in
      db w' = db w
      /\ out_multi w' = lines_to_render inp w
      /\ match lines_to_render inp w with
         | _ :: _ =>
             eval (out_multi_page inp r) w = Some StreamlitAPIException
             /\ ui w' = ui w
         | [] =>
             eval (out_multi_page inp r) w = None
             /\ ui w'
                = (ui w ++ if click_submit inp then [StError MsgNoItems] else [])%list
         end).
Proof.
  split; [apply out_multi_pages_db|].
  split; [apply out_multi_page_db|].
  split; [apply out_multi_page_lines|].
  unfold eval, exec. rewrite out_multi_page_run.
  destruct (lines_to_render inp w); [|split; reflexivity].
  destruct (click_submit inp); simpl; split; try reflexivity.
  symmetry. apply app_nil_r.
Qed.

(** Ten boxes of gloves in stock.  The user adds a line, fills it with
    six boxes, adds a second line, then fills both with six boxes, gives
    the requester and looks for the submit button: each of the four runs
    ends with the exception, the two pending lines are still blank, the
    stock is 10 and the log is empty. *)
Example out_multi_gloves_twice_raises :
  let six := out_line "Gloves" "box" 6 in
  let add_line := out_multi_page (typed_batch true false [] "" "") 123 in
  let fill_one := out_multi_page (typed_batch false false [six] "" "") 123 in
  let submit_two :=
    out_multi_page (typed_batch false true [six; six] "Alice" "") 123 in
  let w0 := sample_world (gloves_db 10) [] [] in
  let w1 := exec add_line w0 in
  let w2 := exec fill_one w1 in
  let w3 := exec add_line w2 in
  let w4 := exec submit_two w3 in
  [eval add_line w0; eval fill_one w1; eval add_line w2; eval submit_two w3]
  = [Some StreamlitAPIException; Some StreamlitAPIException;
     Some StreamlitAPIException; Some StreamlitAPIException]
  /\ out_multi w4 = [blank_out_line; blank_out_line]
  /\ map item_quantity (tbl_items (db w4)) = [Some 10%Q]
  /\ tbl_transactions (db w4) = []
  /\ ui w4 = [].
Proof. repeat split. Qed.

(** ** Pengaturan: reset *)

(** C10. The reset deletes, besides the transaction and item rows (those
    whose id is not -1, which is all of them when ids are positive), every
    user row whose username is not "keep_admin": no such account is left
    afterwards, and nothing else is touched in the users table. *)
Theorem reset_db_removes_users (w : World) :
  let w' := exec reset_db w in
  tbl_users (db w')
  = filter (fun u => String.eqb (username u) "keep_admin") (tbl_users (db w))
  /\ Forall (fun u => username u = "keep_admin") (tbl_users (db w'))
  /\ tbl_items (db w') = filter (fun it => item_id it =? -1) (tbl_items (db w))
  /\ tbl_transactions (db w')
     = filter (fun t => trx_id t =? -1) (tbl_transactions (db w))
  /\ Forall (fun it => item_id it = -1) (tbl_items (db w'))
  /\ Forall (fun t => trx_id t = -1) (tbl_transactions (db w')).
Proof.
  simpl. repeat split.
  - apply Forall_forall. intros u Hu. apply filter_In in Hu.
    destruct Hu as [_ Hu]. apply String.eqb_eq. exact Hu.
  - apply Forall_forall. intros it Hit. apply filter_In in Hit.
    destruct Hit as [_ Hit]. apply Z.eqb_eq. exact Hit.
  - apply Forall_forall. intros t Ht. apply filter_In in Ht.
    destruct Ht as [_ Ht]. apply Z.eqb_eq. exact Ht.
Qed.

(** ** Reasoning rules *)

Lemma hoare_ret {A} (P : World -> Prop) (a : A) (Q : A -> World -> Prop) :
  (forall w, P w -> Q a w) -> hoare P (ret a) Q.
Proof. intros H w Hw. apply H. exact Hw. Qed.

Lemma hoare_bind {A B} (P : World -> Prop) (c : M A) (Q : A -> World -> Prop)
    (k : A -> M B) (R : B -> World -> Prop) :
  hoare P c Q -> (forall a, hoare (Q a) (k a) R) -> hoare P (bind c k) R.
Proof.
  intros Hc Hk w Hw. unfold eval, exec. rewrite bind_run.
  apply (Hk (eval c w) (exec c w)). apply Hc. exact Hw.
Qed.

Lemma hoare_weaken {A} (P P' : World -> Prop) (c : M A) (Q Q' : A -> World -> Prop) :
  hoare P' c Q' -> (forall w, P w -> P' w) -> (forall a w, Q' a w -> Q a w) ->
  hoare P c Q.
Proof. intros Hc HP HQ w Hw. apply HQ, Hc, HP, Hw. Qed.

Lemma keeps_bind {A B} (P : World -> Prop) (c : M A) (k : A -> M B) :
  keeps P c -> (forall a, keeps P (k a)) -> keeps P (bind c k).
Proof. intros Hc Hk. apply (hoare_bind P c (fun _ => P)); assumption. Qed.

Lemma keeps_ret {A} (P : World -> Prop) (a : A) : keeps P (ret a).
Proof. apply hoare_ret. auto. Qed.

Lemma keeps_for_each {A} (P : World -> Prop) (l : list A) (body : A -> M unit) :
  (forall x, In x l -> keeps P (body x)) -> keeps P (for_each l body).
Proof.
  induction l as [|x l IH]; intro Hb; simpl.
  - apply keeps_ret.
  - apply keeps_bind.
    + apply Hb. left. reflexivity.
    + intros _. apply IH. intros y Hy. apply Hb. right. exact Hy.
Qed.

(** A computation that leaves the backend alone keeps every property of
    the backend. *)
Lemma keeps_db {A} (P : Database -> Prop) (c : M A) :
  (forall w, db (exec c w) = db w) -> keeps (fun w => P (db w)) c.
Proof. intros H w Hw. simpl. rewrite H. exact Hw. Qed.

Lemma db_generate_trx_code (t : string) (r : Z) (w : World) :
  db (exec (generate_trx_code t r) w) = db w.
Proof. reflexivity. Qed.

Lemma db_preflight (lines : list OutLine) (w : World) :
  db (exec (preflight lines) w) = db w.
Proof. unfold exec. rewrite preflight_pure. reflexivity. Qed.

(** ** Quantities stay at or above zero *)

Lemma or0_nonneg (q : Q) : (0 <= q)%Q -> (0 <= or0 q)%Q.
Proof. intro H. rewrite or0_eq. exact H. Qed.

Lemma lookup_item_In (d : Database) (name unit_ : string) (item : Item) :
  lookup_item d name unit_ = Some item -> In item (tbl_items d).
Proof. intro H. apply find_some in H. apply H. Qed.

Lemma all_nonneg_map (d : Database) (id : Z) (f : Item -> Item) :
  all_nonneg d ->
  (forall it, (0 <= current_qty (f it))%Q) ->
  Forall (fun it => (0 <= current_qty it)%Q)
    (map (fun it => if item_id it =? id then f it else it) (tbl_items d)).
Proof.
  intros Hd Hf. unfold all_nonneg in Hd. rewrite Forall_forall in *.
  intros x Hx. apply in_map_iff in Hx. destruct Hx as (it & <- & Hit).
  destruct (item_id it =? id); [apply Hf | apply Hd, Hit].
Qed.

Lemma upsert_nonneg (name category unit_ : string) (quantity min_stock : Q)
    (rack_location : string) (expiry_date : option Date) :
  (0 <= quantity)%Q ->
  keeps nonneg_world
    (upsert_item name category unit_ quantity min_stock rack_location expiry_date).
Proof.
  intros Hq w Hw. unfold nonneg_world in *. unfold exec.
  destruct (lookup_item (db w) (strip name) unit_) as [item|] eqn:Hl.
  - rewrite (upsert_found _ _ _ _ _ _ _ _ _ Hl). simpl.
    apply all_nonneg_map; [exact Hw|].
    intro it. unfold current_qty at 1. simpl. apply or0_nonneg.
    pose proof (lookup_item_In _ _ _ _ Hl) as Hin.
    unfold all_nonneg in Hw. rewrite Forall_forall in Hw. specialize (Hw _ Hin).
    apply or0_nonneg in Hq.
    apply (Qplus_le_compat 0 _ 0 _ Hw) in Hq. exact Hq.
  - rewrite (upsert_absent _ _ _ _ _ _ _ _ Hl). simpl.
    unfold all_nonneg. simpl. apply Forall_app. split; [exact Hw|].
    constructor; [|constructor].
    unfold current_qty. simpl. apply or0_nonneg, or0_nonneg, Hq.
Qed.

Lemma adjust_nonneg (name unit_ : string) (quantity : Q) :
  keeps nonneg_world (adjust_item_for_out name unit_ quantity).
Proof.
  intros w Hw. unfold nonneg_world in *. unfold exec.
  destruct (lookup_item (db w) name unit_) as [item|] eqn:Hl.
  - destruct (Qlt_le_dec (current_qty item) quantity) as [Hlt|Hle].
    + rewrite (adjust_short _ _ _ _ _ Hl Hlt). exact Hw.
    + rewrite (adjust_ok _ _ _ _ _ Hl Hle). simpl.
      apply all_nonneg_map; [exact Hw|].
      intro it. unfold current_qty at 1. simpl. apply or0_nonneg.
      unfold Qminus. rewrite <- Qle_minus_iff. exact Hle.
  - rewrite (adjust_missing _ _ _ _ Hl). exact Hw.
Qed.

Lemma add_transaction_nonneg (t : string) (id : option Z) (name : string)
    (quantity : Q) (unit_ : string) (requester supplier : option string)
    (note bundle code : string) (expiry : option Date) :
  keeps nonneg_world
    (add_transaction_record t id name quantity unit_ requester supplier note
       bundle code expiry).
Proof. intros w Hw. exact Hw. Qed.

Ltac keeps_frame :=
  apply (keeps_db all_nonneg); intro; reflexivity.

Lemma last_in_list {A} (l : list A) (d : A) : l <> [] -> In (last l d) l.
Proof.
  induction l as [|x l IH]; intro Hne; [congruence|].
  destruct l as [|y l']; [left; reflexivity|].
  right. apply IH. discriminate.
Qed.

Lemma in_line_valid_pos (it : InLine) :
  in_line_invalid it = false -> (0 < in_quantity it)%Q.
Proof.
  unfold in_line_invalid. intro H.
  apply orb_false_elim in H. destruct H as [H _].
  apply orb_false_elim in H. destruct H as [_ H].
  apply Qle_bool_false. exact H.
Qed.

Lemma in_single_nonneg (name unit_ : string) (qty : Q) (category : string)
    (min_stock : Q) (supplier rack_location : string) (expiry_date : option Date)
    (r : Z) :
  keeps nonneg_world
    (in_single_submit name unit_ qty category min_stock supplier rack_location
       expiry_date r).
Proof.
  unfold in_single_submit.
  destruct (py_not name || Qle_bool qty 0 || py_not unit_) eqn:E.
  - keeps_frame.
  - apply orb_false_elim in E. destruct E as [E _].
    apply orb_false_elim in E. destruct E as [_ E].
    apply Qle_bool_false in E.
    apply keeps_bind; [apply upsert_nonneg, Qlt_le_weak, E|]. intro id.
    apply keeps_bind; [keeps_frame|]. intro c.
    apply keeps_bind; [apply add_transaction_nonneg|]. intros _.
    keeps_frame.
Qed.

Lemma in_multi_apply_nonneg (to_date : string -> option Date)
    (supplier note : string) (r : Z) (it : InLine) :
  (0 < in_quantity it)%Q ->
  keeps nonneg_world (in_multi_apply to_date supplier note r it).
Proof.
  intro Hpos. unfold in_multi_apply.
  apply keeps_bind; [keeps_frame|]. intro c.
  apply keeps_bind; [keeps_frame|]. intros _.
  apply keeps_bind; [apply upsert_nonneg, Qlt_le_weak, Hpos|]. intro id.
  apply keeps_bind; [apply add_transaction_nonneg|]. intros _.
  apply keeps_bind; [keeps_frame|]. intros _.
  keeps_frame.
Qed.

Lemma in_multi_nonneg (to_date : string -> option Date) (supplier note : string)
    (r : Z) :
  keeps nonneg_world (in_multi_submit to_date supplier note r).
Proof.
  intros w Hw.
  destruct (in_multi w) as [|first rest] eqn:El.
  - unfold exec, in_multi_submit. rewrite El. exact Hw.
  - destruct (bad_rows in_line_invalid (in_multi w) 0) as [|e errors] eqn:Eb.
    + pose proof Eb as Hall. apply bad_rows_nil in Hall.
      assert (Hne : in_multi w <> []) by (rewrite El; discriminate).
      rewrite (in_multi_submit_valid to_date supplier note r w Hne Hall first).
      pose proof (last_in_list (in_multi w) first Hne) as Hlast.
      rewrite Forall_forall in Hall. specialize (Hall _ Hlast).
      apply in_line_valid_pos in Hall.
      apply (in_multi_apply_nonneg _ _ _ _ _ Hall w Hw).
    + unfold exec, in_multi_submit. rewrite El. rewrite El in Eb. rewrite Eb.
      exact Hw.
Qed.

Lemma out_single_nonneg (name unit_ : string) (qty : Q) (requester note : string)
    (r : Z) :
  keeps nonneg_world (out_single_submit name unit_ qty requester note r).
Proof.
  unfold out_single_submit.
  destruct (py_not name || Qle_bool qty 0 || py_not unit_ || py_not requester).
  - keeps_frame.
  - apply keeps_bind; [keeps_frame|]. intros [row|]; [|keeps_frame].
    destruct (Qltb (get_or0 (item_quantity row)) qty); [keeps_frame|].
    apply keeps_bind; [apply adjust_nonneg|]. intros [id [e|]]; [keeps_frame|].
    apply keeps_bind; [keeps_frame|]. intro c.
    apply keeps_bind; [apply add_transaction_nonneg|]. intros _.
    keeps_frame.
Qed.

Lemma out_apply_line_nonneg (requester bundle code : string) (it : OutLine) :
  keeps nonneg_world (out_apply_line requester bundle code it).
Proof.
  unfold out_apply_line.
  apply keeps_bind; [apply adjust_nonneg|]. intros [id e].
  apply add_transaction_nonneg.
Qed.

Lemma out_multi_nonneg (requester note_all : string) (r : Z) :
  keeps nonneg_world (out_multi_submit requester note_all r).
Proof.
  intros w Hw. unfold exec, out_multi_submit.
  destruct (out_multi w) as [|first rest]; [exact Hw|].
  destruct (py_not requester); [exact Hw|].
  destruct (bad_rows out_line_invalid (first :: rest) 0); [|exact Hw].
  revert w Hw.
  change (keeps nonneg_world
            (insufficient <- preflight (first :: rest) ;;
             match insufficient with
             | _ :: _ => st_error (MsgRejected insufficient)
             | [] =>
                 trx_code_ <- generate_trx_code "out" r ;;
                 for_each (first :: rest)
                   (out_apply_line requester trx_code_ trx_code_) ;;;
                 st_success (MsgOutBatchDone trx_code_) ;;;
                 clear_out_multi
             end)).
  apply keeps_bind.
  - apply (keeps_db all_nonneg). apply db_preflight.
  - intros [|x ins]; [|keeps_frame].
    apply keeps_bind; [keeps_frame|]. intro c.
    apply keeps_bind.
    + apply keeps_for_each. intros it _. apply out_apply_line_nonneg.
    + intros _. apply keeps_bind; [keeps_frame|]. intros _. keeps_frame.
Qed.

Lemma import_rows_nonneg (to_date : string -> option Date) (df : Sheet)
    (rows : list SheetRow) (n : nat) :
  Forall (fun row => (0 <= float_cell (cell_quantity row))%Q) rows ->
  keeps nonneg_world (import_rows to_date df rows n).
Proof.
  revert n. induction rows as [|row rows IH]; intros n Hrows; simpl.
  - apply keeps_ret.
  - inversion Hrows as [|? ? Hrow Hrest]; subst.
    apply keeps_bind.
    + unfold import_row. apply keeps_bind; [apply upsert_nonneg, Hrow|].
      intros _. apply keeps_ret.
    + intros _. apply IH. exact Hrest.
Qed.

Lemma import_nonneg (to_date : string -> option Date) (df : Sheet) :
  sheet_nonneg df ->
  keeps nonneg_world (load_inventory_from_excel to_date df).
Proof.
  intro Hdf. unfold load_inventory_from_excel.
  destruct (negb (forallb (has_column df) ["name"; "quantity"; "unit"])).
  - apply keeps_ret.
  - apply keeps_bind; [apply import_rows_nonneg, Hdf|]. intro n. apply keeps_ret.
Qed.

Lemma reset_nonneg : keeps nonneg_world reset_db.
Proof.
  intros w Hw. unfold nonneg_world, all_nonneg in *. simpl.
  rewrite Forall_forall in *. intros it Hit. apply filter_In in Hit.
  apply Hw, Hit.
Qed.

Lemma step_nonneg (to_date : string -> option Date) (o : Op) (w : World) :
  op_nonneg o -> all_nonneg (db w) -> all_nonneg (db (step to_date o w)).
Proof.
  intros Ho Hw. destruct o; simpl.
  - apply in_single_nonneg, Hw.
  - apply in_multi_nonneg, Hw.
  - apply out_single_nonneg, Hw.
  - apply out_multi_nonneg, Hw.
  - apply import_nonneg; [exact Ho | exact Hw].
  - apply reset_nonneg, Hw.
Qed.

(** C6, as the code has it.  From a state where every quantity is at or
    above 0, every run of operations leaves every quantity at or above 0,
    provided each imported sheet carries only quantities at or above 0:
    the single and batch forms and the reset need no proviso, the bulk
    import writes the quantity of the sheet as it is. *)
Theorem quantity_nonneg_preserved
    (to_date : string -> option Date) (ops : list Op) (w : World) :
  Forall op_nonneg ops ->
  all_nonneg (db w) ->
  all_nonneg (db (run to_date ops w)).
Proof.
  revert w. induction ops as [|o ops IH]; intros w Hops Hw; simpl.
  - exact Hw.
  - inversion Hops as [|? ? Ho Hrest]; subst.
    apply IH; [exact Hrest|]. apply step_nonneg; assumption.
Qed.

(** Ten gloves in stock; four go out, an attempt at ten more is refused,
    five masks are imported. *)
Lemma quantity_nonneg_preserved_witness :
  all_nonneg
    (db (run no_date
           [OpOutSingle "Gloves" "box" 4 "Alice" "" 123;
            OpOutSingle "Gloves" "box" 10 "Bob" "" 456;
            OpImport five_sheet]
           (sample_world (gloves_db 10) [] []))).
Proof.
  apply (quantity_nonneg_preserved no_date
           [OpOutSingle "Gloves" "box" 4 "Alice" "" 123;
            OpOutSingle "Gloves" "box" 10 "Bob" "" 456;
            OpImport five_sheet]
           (sample_world (gloves_db 10) [] [])).
  - repeat constructor. simpl. discriminate.
  - repeat constructor. simpl. discriminate.
Defined.

(** C6 as stated fails on the bulk import: a sheet row with quantity -5
    creates an item with quantity -5 in a backend that had no negative
    quantity. *)
Lemma import_negative_quantity :
  all_nonneg (db (sample_world fresh_db [] []))
  /\ eval (load_inventory_from_excel no_date negative_sheet)
       (sample_world fresh_db [] []) = Inserted 1
  /\ map item_quantity
       (tbl_items (db (step no_date (OpImport negative_sheet)
                         (sample_world fresh_db [] []))))
     = [Some (-5)%Q]
  /\ ~ all_nonneg (db (step no_date (OpImport negative_sheet)
                         (sample_world fresh_db [] []))).
Proof.
  repeat split.
  - constructor.
  - intro H. inversion H as [|? ? Hq _]. subst. apply Hq. reflexivity.
Qed.

(** ** Rows rewritten by id *)

Lemma NoDup_map_inj {A B} (f : A -> B) (l : list A) (x y : A) :
  NoDup (map f l) -> In x l -> In y l -> f x = f y -> x = y.
Proof.
  induction l as [|a l IH]; simpl; intros Hnd Hx Hy Hf; [contradiction|].
  inversion Hnd as [|? ? Hna Hnd']; subst.
  destruct Hx as [->|Hx], Hy as [->|Hy].
  - reflexivity.
  - exfalso. apply Hna. rewrite Hf. apply in_map, Hy.
  - exfalso. apply Hna. rewrite <- Hf. apply in_map, Hx.
  - apply IH; assumption.
Qed.

Lemma update_rows_ids (id : Z) (f : Item -> Item) (l : list Item) :
  (forall it, item_id (f it) = item_id it) ->
  map item_id (update_rows id f l) = map item_id l.
Proof.
  intro Hf. unfold update_rows. rewrite map_map. apply map_ext.
  intro it. destruct (item_id it =? id); [apply Hf | reflexivity].
Qed.

Lemma hoare_false {A} (c : M A) (Q : A -> World -> Prop) :
  hoare (fun _ => False) c Q.
Proof. intros w []. Qed.

(** ** Period labels *)

Lemma str_Z_inj (a b : Z) : str_Z a = str_Z b -> a = b.
Proof.
  unfold str_Z. intro H.
  assert (Hn : forall z, Z.to_int z <> Decimal.Pos Decimal.Nil
                         /\ Z.to_int z <> Decimal.Neg Decimal.Nil).
  { intro z. destruct z; simpl; split; try discriminate;
      intro E; injection E; apply Unsigned.to_uint_nonnil. }
  apply (f_equal NilZero.int_of_string) in H.
  rewrite !NilZero.isi in H by apply Hn.
  injection H as H. apply (f_equal Z.of_int) in H.
  rewrite !DecimalZ.of_to in H. exact H.
Qed.

Lemma string_length_app (s t : string) :
  String.length (s ++ t) = (String.length s + String.length t)%nat.
Proof. induction s as [|c s IH]; simpl; [reflexivity | rewrite IH; reflexivity]. Qed.

Lemma string_app_inj (s1 s2 t1 t2 : string) :
  String.length t1 = String.length t2 ->
  (s1 ++ t1)%string = (s2 ++ t2)%string -> s1 = s2 /\ t1 = t2.
Proof.
  revert s2. induction s1 as [|c s1 IH]; intros [|c2 s2] Hlen H; simpl in H.
  - split; [reflexivity | exact H].
  - exfalso. rewrite H in Hlen. simpl in Hlen. rewrite string_length_app in Hlen. lia.
  - exfalso. rewrite <- H in Hlen. simpl in Hlen. rewrite string_length_app in Hlen. lia.
  - injection H as Hc H. destruct (IH s2 Hlen H) as [-> ->]. subst. split; reflexivity.
Qed.

Lemma in_range100 (n : Z) : 0 <= n < 100 -> In n range100.
Proof.
  intro H. unfold range100. apply in_map_iff. exists (Z.to_nat n).
  split; [lia|]. apply in_seq. lia.
Qed.

Lemma pad2_length (n : Z) : 0 <= n < 100 -> String.length (pad2 n) = 2%nat.
Proof.
  intro H. apply in_range100 in H.
  assert (Hall : forallb (fun k => Nat.eqb (String.length (pad2 k)) 2) range100 = true)
    by (vm_compute; reflexivity).
  rewrite forallb_forall in Hall. apply Nat.eqb_eq, Hall, H.
Qed.

Lemma pad2_inj (a b : Z) : 0 <= a < 100 -> 0 <= b < 100 -> pad2 a = pad2 b -> a = b.
Proof.
  intros Ha Hb H. apply in_range100 in Ha. apply in_range100 in Hb.
  assert (Hall : forallb (fun x => forallb (fun y =>
                    implb (String.eqb (pad2 x) (pad2 y)) (x =? y)) range100)
                   range100 = true)
    by (vm_compute; reflexivity).
  rewrite forallb_forall in Hall. specialize (Hall a Ha).
  rewrite forallb_forall in Hall. specialize (Hall b Hb).
  apply String.eqb_eq in H. rewrite H in Hall. simpl in Hall.
  apply Z.eqb_eq, Hall.
Qed.

(** A label "year-nn" determines the year and the two-digit number. *)
Lemma label_inj (y1 y2 n1 n2 : Z) :
  0 <= n1 < 100 -> 0 <= n2 < 100 ->
  (str_Z y1 ++ "-" ++ pad2 n1)%string = (str_Z y2 ++ "-" ++ pad2 n2)%string ->
  y1 = y2 /\ n1 = n2.
Proof.
  intros H1 H2 H. apply string_app_inj in H.
  - destruct H as [Hy Hn]. split; [apply str_Z_inj, Hy|].
    injection Hn as Hn. apply pad2_inj; assumption.
  - simpl. rewrite !pad2_length by assumption. reflexivity.
Qed.

Lemma days_before_month_bounds (y m : Z) :
  1 <= m <= 12 -> 0 <= days_before_month y m <= 335.
Proof.
  intro Hm. unfold days_before_month.
  assert (Hcases : m = 1 \/ m = 2 \/ m = 3 \/ m = 4 \/ m = 5 \/ m = 6 \/ m = 7
                   \/ m = 8 \/ m = 9 \/ m = 10 \/ m = 11 \/ m = 12) by lia.
  destruct (is_leap y);
    repeat (destruct Hcases as [-> | Hcases]); try rewrite Hcases;
    vm_compute; split; discriminate.
Qed.

Lemma yday_bounds (d : Date) : valid_date d -> 0 <= yday d <= 365.
Proof.
  intros [Hm Hd]. unfold yday.
  pose proof (days_before_month_bounds (year d) (month d) Hm). lia.
Qed.

Lemma week_W_bounds (d : Date) : valid_date d -> 0 <= week_W d < 100.
Proof.
  intro Hv. pose proof (yday_bounds d Hv) as Hy.
  unfold week_W, weekday.
  pose proof (Z.mod_pos_bound (toordinal d + 6) 7 ltac:(lia)) as Hw.
  split.
  - apply Z.div_pos; lia.
  - apply Z.div_lt_upper_bound; lia.
Qed.

Lemma strftime_Y_W_inj (d1 d2 : Date) :
  valid_date d1 -> valid_date d2 ->
  strftime_Y_W d1 = strftime_Y_W d2 ->
  year d1 = year d2 /\ week_W d1 = week_W d2.
Proof.
  intros H1 H2. apply label_inj; apply week_W_bounds; assumption.
Qed.

Lemma strftime_Y_m_inj (d1 d2 : Date) :
  valid_date d1 -> valid_date d2 ->
  strftime_Y_m d1 = strftime_Y_m d2 ->
  year d1 = year d2 /\ month d1 = month d2.
Proof.
  intros [H1 _] [H2 _]. apply label_inj; lia.
Qed.

(** ** Grouping *)

Lemma insert_sorted_perm (k : Key) (l : list Key) :
  Permutation (insert_sorted k l) (k :: l).
Proof.
  induction l as [|x l IH]; simpl; [apply Permutation_refl|].
  destruct (key_compare k x); try apply Permutation_refl.
  eapply Permutation_trans; [apply perm_skip, IH | apply perm_swap].
Qed.

Lemma sort_keys_perm (l : list Key) : Permutation (sort_keys l) l.
Proof.
  induction l as [|x l IH]; simpl; [apply Permutation_refl|].
  eapply Permutation_trans; [apply insert_sorted_perm | apply perm_skip, IH].
Qed.

Lemma key_eqb_eq (a b : Key) : key_eqb a b = true <-> a = b.
Proof.
  unfold key_eqb. destruct (key_eq_dec a b); split; intro H; congruence.
Qed.

Lemma groupby_sum_keys (key : Movement -> Key) (df : list Movement) :
  map tot_key (groupby_sum key df) = sort_keys (nodup key_eq_dec (map key df)).
Proof.
  unfold groupby_sum. rewrite map_map. simpl. apply map_id.
Qed.

Lemma groupby_sum_key_in (key : Movement -> Key) (df : list Movement) (k : Key) :
  In k (map tot_key (groupby_sum key df)) <-> exists m, In m df /\ key m = k.
Proof.
  rewrite groupby_sum_keys. split.
  - intro H. apply (Permutation_in _ (sort_keys_perm _)) in H.
    apply nodup_In in H. apply in_map_iff in H.
    destruct H as (m & Hk & Hm). exists m. split; assumption.
  - intros (m & Hm & Hk).
    apply (Permutation_in _ (Permutation_sym (sort_keys_perm _))).
    apply nodup_In. apply in_map_iff. exists m. split; assumption.
Qed.

Lemma groupby_sum_nodup (key : Movement -> Key) (df : list Movement) :
  NoDup (map tot_key (groupby_sum key df)).
Proof.
  rewrite groupby_sum_keys.
  apply (Permutation_NoDup (Permutation_sym (sort_keys_perm _))).
  apply NoDup_nodup.
Qed.

Lemma totals_for_period_groupby (df : list Movement) (period : string)
    (date_from date_to : option Date) :
  period = "W" \/ period = "M" ->
  totals_for_period df period date_from date_to
  = groupby_sum (period_key period) df.
Proof.
  intros [-> | ->]; destruct df; reflexivity.
Qed.

Lemma period_bucket_W (d : Date) : period_bucket "W" d = (year d, week_W d).
Proof. reflexivity. Qed.

Lemma period_bucket_M (d : Date) : period_bucket "M" d = (year d, month d).
Proof. reflexivity. Qed.

(** Equal keys are equal buckets, names, units and types. *)
Lemma same_group_key (period : string) (a b : Movement) :
  period = "W" \/ period = "M" ->
  valid_date (mv_date a) -> valid_date (mv_date b) ->
  key_eqb (period_key period a) (period_key period b) = same_group period a b.
Proof.
  intros Hp Ha Hb.
  destruct (same_group period a b) eqn:Hs.
  - apply key_eqb_eq. unfold same_group in Hs.
    repeat (apply andb_true_iff in Hs; destruct Hs as [Hs ?]).
    repeat match goal with
           | H : String.eqb _ _ = true |- _ => apply String.eqb_eq in H
           | H : (_ =? _) = true |- _ => apply Z.eqb_eq in H
           end.
    destruct Hp as [-> | ->].
    + rewrite !period_bucket_W in *. cbn [fst snd] in *.
      change (period_key "W") with week_key.
      unfold week_key, strftime_Y_W. congruence.
    + rewrite !period_bucket_M in *. cbn [fst snd] in *.
      change (period_key "M") with month_key.
      unfold month_key, strftime_Y_m. congruence.
  - destruct (key_eqb (period_key period a) (period_key period b)) eqn:Hk;
      [|reflexivity].
    apply key_eqb_eq in Hk. exfalso.
    assert (Hs' : same_group period a b = true); [|congruence].
    unfold same_group.
    destruct Hp as [-> | ->].
    + change (period_key "W") with week_key in Hk.
      unfold week_key in Hk. injection Hk as Hl Hn Hu Ht.
      apply strftime_Y_W_inj in Hl; [|assumption..]. destruct Hl as [Hy Hw].
      rewrite !period_bucket_W. cbn [fst snd].
      rewrite Hy, Hw, Hn, Hu, Ht, !Z.eqb_refl, !String.eqb_refl. reflexivity.
    + change (period_key "M") with month_key in Hk.
      unfold month_key in Hk. injection Hk as Hl Hn Hu Ht.
      apply strftime_Y_m_inj in Hl; [|assumption..]. destruct Hl as [Hy Hw].
      rewrite !period_bucket_M. cbn [fst snd].
      rewrite Hy, Hw, Hn, Hu, Ht, !Z.eqb_refl, !String.eqb_refl. reflexivity.
Qed.

(** C8, as the code has it.  For the periods "W" and "M",
    [totals_for_period] returns one row per group of movements with the
    same bucket, item name, unit and movement type, and the row carries
    the sum of the quantities of its group.  The week bucket is the year
    and the [%W] week number (weeks start on Monday, the days before the
    first Monday of the year are week 0); the month bucket is the year and
    the month. *)
Theorem totals_for_period_groups
    (df : list Movement) (period : string) (date_from date_to : option Date) :
  period = "W" \/ period = "M" ->
  Forall (fun m => valid_date (mv_date m)) df ->
  let res := totals_for_period df period date_from date_to in
  NoDup (map tot_key res)
  /\ (forall t, In t res -> exists m, In m df /\ tot_key t = period_key period m)
  /\ (forall m, In m df ->
        exists t, In t res /\ tot_key t = period_key period m
                  /\ tot_quantity t = group_total period df m)
  /\ (forall a b, In a df -> In b df ->
        (period_key period a = period_key period b
         <-> same_group period a b = true)).
Proof.
  intros Hp Hv res. subst res. rewrite (totals_for_period_groupby _ _ _ _ Hp).
  rewrite Forall_forall in Hv.
  split; [apply groupby_sum_nodup|]. split; [|split].
  - intros t Ht. apply (in_map tot_key) in Ht.
    apply groupby_sum_key_in in Ht. destruct Ht as (m & Hm & Hk).
    exists m. split; [exact Hm | symmetry; exact Hk].
  - intros m Hm.
    assert (Hk : In (period_key period m)
                   (sort_keys (nodup key_eq_dec (map (period_key period) df)))).
    { rewrite <- groupby_sum_keys. apply groupby_sum_key_in.
      exists m. split; [exact Hm | reflexivity]. }
    eexists. split; [|split].
    + unfold groupby_sum. apply in_map_iff. eexists. split; [reflexivity | exact Hk].
    + reflexivity.
    + simpl. unfold group_total. f_equal. f_equal.
      apply filter_ext_in. intros x Hx.
      apply same_group_key; [exact Hp | apply Hv, Hx | apply Hv, Hm].
  - intros a b Ha Hb.
    rewrite <- (same_group_key period a b Hp (Hv _ Ha) (Hv _ Hb)).
    symmetry. apply key_eqb_eq.
Qed.

(** Two inbound movements of masks in the Monday week of 2025-01-06 and
    one a week later. *)
Lemma totals_for_period_groups_witness :
  exists t,
    In t (totals_for_period
            [mask_in (mkDate 2025 1 6); mask_in (mkDate 2025 1 13);
             mask_in (mkDate 2025 1 8)] "W" None None)
    /\ tot_key t = ("2025-01", "Mask", "box", "in")
    /\ tot_quantity t = (0 + 5 + 5)%Q.
Proof.
  destruct (totals_for_period_groups
              [mask_in (mkDate 2025 1 6); mask_in (mkDate 2025 1 13);
               mask_in (mkDate 2025 1 8)] "W" None None)
    as (_ & _ & H & _).
  - left. reflexivity.
  - repeat constructor; simpl; lia.
  - destruct (H (mask_in (mkDate 2025 1 6))) as (t & Ht & Hk & Hq).
    + left. reflexivity.
    + exists t. split; [exact Ht|]. split; [exact Hk | exact Hq].
Defined.

(** C8 as stated fails on the week bucket.  2025-01-06 is in ISO week 2
    and in bucket "2025-01".  2024-01-01 and 2024-12-30 both have year
    2024 and ISO week 1, and 2024-12-30 and 2025-01-01 are in the same
    ISO week; the code puts the three days in three buckets. *)
Lemma week_bucket_is_not_iso_week :
  iso_week (mkDate 2025 1 6) = 2
  /\ map tot_key (totals_for_period [mask_in (mkDate 2025 1 6)] "W" None None)
     = [("2025-01", "Mask", "box", "in")]
  /\ totals_for_period [mask_in (mkDate 2025 1 6)] "W" None None
     <> groupby_sum spec_week_key [mask_in (mkDate 2025 1 6)]
  /\ (year (mkDate 2024 1 1), iso_week (mkDate 2024 1 1))
     = (year (mkDate 2024 12 30), iso_week (mkDate 2024 12 30))
  /\ isocalendar (mkDate 2024 12 30) = isocalendar (mkDate 2025 1 1)
  /\ map tot_key
       (totals_for_period
          [mask_in (mkDate 2024 1 1); mask_in (mkDate 2024 12 30);
           mask_in (mkDate 2025 1 1)] "W" None None)
     = [("2024-01", "Mask", "box", "in"); ("2024-53", "Mask", "box", "in");
        ("2025-00", "Mask", "box", "in")]
  /\ List.length (groupby_sum spec_week_key
               [mask_in (mkDate 2024 1 1); mask_in (mkDate 2024 12 30)])
     = 1%nat.
Proof.
  repeat split. vm_compute. discriminate.
Qed.

(** The [%W] number counts Mondays: within a month it grows by one from a
    day to the next exactly when the next day is a Monday. *)
Lemma week_W_next_day (y m dd : Z) :
  week_W (mkDate y m (dd + 1))
  = week_W (mkDate y m dd)
    + (if weekday (mkDate y m (dd + 1)) =? 0 then 1 else 0).
Proof.
  unfold week_W, weekday, toordinal, yday. simpl.
  generalize (days_before_month y m) as b.
  generalize (days_before_year y) as a. intros a b.
  destruct ((a + (b + (dd + 1) - 1) + 1 + 6) mod 7 =? 0) eqn:E.
  - apply Z.eqb_eq in E.
    assert (H6 : (a + (b + dd - 1) + 1 + 6) mod 7 = 6).
    { pose proof (Z.mod_pos_bound (a + (b + dd - 1) + 1 + 6) 7 ltac:(lia)).
      pose proof (Z.div_mod (a + (b + dd - 1) + 1 + 6) 7 ltac:(lia)).
      pose proof (Z.div_mod (a + (b + (dd + 1) - 1) + 1 + 6) 7 ltac:(lia)).
      lia. }
    rewrite E, H6.
    replace (b + (dd + 1) - 1 + 7 - 0) with ((b + dd - 1 + 7 - 6) + 1 * 7) by lia.
    rewrite Z.div_add by lia. reflexivity.
  - apply Z.eqb_neq in E.
    pose proof (Z.mod_pos_bound (a + (b + dd - 1) + 1 + 6) 7 ltac:(lia)) as B1.
    pose proof (Z.mod_pos_bound (a + (b + (dd + 1) - 1) + 1 + 6) 7 ltac:(lia)) as B2.
    pose proof (Z.div_mod (a + (b + dd - 1) + 1 + 6) 7 ltac:(lia)) as D1.
    pose proof (Z.div_mod (a + (b + (dd + 1) - 1) + 1 + 6) 7 ltac:(lia)) as D2.
    assert (Hnext : (a + (b + (dd + 1) - 1) + 1 + 6) mod 7
                    = (a + (b + dd - 1) + 1 + 6) mod 7 + 1) by lia.
    rewrite Hnext. rewrite Z.add_0_r. f_equal. lia.
Qed.

(** * Further properties of the code *)

(** ** Quantities by name and unit *)

Lemma same_key_true (n1 u1 n2 u2 : string) :
  same_key n1 u1 n2 u2 = true <-> n1 = n2 /\ u1 = u2.
Proof.
  unfold same_key. rewrite andb_true_iff, !String.eqb_eq. reflexivity.
Qed.

Lemma lookup_item_key (d : Database) (n u : string) (it : Item) :
  lookup_item d n u = Some it -> item_name it = n /\ item_unit it = u.
Proof.
  intro H. apply find_some in H. destruct H as [_ H].
  apply same_key_true in H. exact H.
Qed.

Lemma find_app {A} (p : A -> bool) (l1 l2 : list A) :
  find p (l1 ++ l2) = match find p l1 with Some x => Some x | None => find p l2 end.
Proof.
  induction l1 as [|x l1 IH]; simpl; [reflexivity|].
  destruct (p x); [reflexivity | exact IH].
Qed.

(** The first matches of two different names or units are rows with
    different ids. *)
Lemma lookup_other_id (d : Database) (n u n' u' : string) (it item : Item) :
  NoDup (map item_id (tbl_items d)) ->
  lookup_item d n u = Some it ->
  lookup_item d n' u' = Some item ->
  same_key n u n' u' = false ->
  item_id it <> item_id item.
Proof.
  intros Hnd Hit Hitem Hk Hid.
  assert (it = item).
  { apply (NoDup_map_inj item_id _ _ _ Hnd); [| |exact Hid];
      eapply lookup_item_In; eassumption. }
  subst it. apply lookup_item_key in Hit. apply lookup_item_key in Hitem.
  destruct Hit as [<- <-]. destruct Hitem as [<- <-].
  unfold same_key in Hk. rewrite !String.eqb_refl in Hk. discriminate.
Qed.

Lemma lookup_update_rows (d : Database) (f : Item -> Item) (id : Z) (n u : string) :
  (forall it, item_name (f it) = item_name it /\ item_unit (f it) = item_unit it) ->
  find (item_matches n u) (update_rows id f (tbl_items d))
  = option_map (fun it => if item_id it =? id then f it else it)
      (lookup_item d n u).
Proof.
  intro Hf. unfold update_rows. apply find_map_keep.
  intro it. destruct (item_id it =? id); [|reflexivity].
  unfold item_matches. destruct (Hf it) as [-> ->]. reflexivity.
Qed.

Lemma items_wf_update (d : Database) (id : Z) (f : Item -> Item) :
  (forall it, item_id (f it) = item_id it) ->
  items_wf d ->
  items_wf (set_items (update_rows id f (tbl_items d)) d).
Proof.
  intros Hf [Hids Hnd]. split; simpl.
  - rewrite Forall_forall in *. intros x Hx. unfold update_rows in Hx.
    apply in_map_iff in Hx. destruct Hx as (it & <- & Hit).
    destruct (item_id it =? id); [rewrite Hf|]; apply Hids, Hit.
  - rewrite update_rows_ids by exact Hf. exact Hnd.
Qed.

(** What one upsert does to the quantities seen under every name and
    unit: the upserted one grows by the quantity, the others stay. *)
Lemma upsert_qty_at (name category unit_ : string) (quantity min_stock : Q)
    (rack_location : string) (expiry_date : option Date) (w : World) :
  items_wf (db w) ->
  let w' := exec (upsert_item name category unit_ quantity min_stock rack_location
                    expiry_date) w in
  items_wf (db w')
  /\ forall n u,
       (qty_at (db w') n u
        == qty_at (db w) n u
           + (if same_key n u (strip name) unit_ then quantity else 0))%Q.
Proof.
  intros Hwf w'. subst w'. unfold exec.
  destruct (lookup_item (db w) (strip name) unit_) as [item|] eqn:Hl.
  - rewrite (upsert_found _ _ _ _ _ _ _ _ _ Hl). simpl. split.
    + apply (items_wf_update (db w)); [intro; reflexivity | exact Hwf].
    + intros n u. unfold qty_at at 1. unfold lookup_item at 1. simpl.
      fold (update_rows (item_id item)
              (in_update (current_qty item + or0 quantity)%Q category min_stock
                 rack_location expiry_date (clock w (clock_reads w)))
              (tbl_items (db w))).
      rewrite lookup_update_rows by (intro; split; reflexivity).
      unfold qty_at.
      destruct (same_key n u (strip name) unit_) eqn:Ek.
      * apply same_key_true in Ek. destruct Ek as [-> ->]. rewrite Hl. simpl.
        rewrite Z.eqb_refl. unfold current_qty at 1. simpl.
        rewrite !or0_eq. reflexivity.
      * destruct (lookup_item (db w) n u) as [it|] eqn:Hit; simpl; [|lra].
        destruct Hwf as [_ Hnd].
        pose proof (lookup_other_id _ _ _ _ _ _ _ Hnd Hit Hl Ek) as Hne.
        apply Z.eqb_neq in Hne. rewrite Hne. lra.
  - rewrite (upsert_absent _ _ _ _ _ _ _ _ Hl). simpl.
    destruct Hwf as [Hids Hnd]. split.
    + split; simpl.
      * apply Forall_app. split.
        -- eapply Forall_impl; [|exact Hids]. simpl. intros it Hit. lia.
        -- constructor; [simpl; lia | constructor].
      * rewrite map_app. simpl. apply NoDup_app.
        -- exact Hnd.
        -- constructor; [intros []|constructor].
        -- intros i Hi [<-|[]]. apply in_map_iff in Hi.
           destruct Hi as (it & Heq & Hit). rewrite Forall_forall in Hids.
           specialize (Hids _ Hit). lia.
    + intros n u. unfold qty_at, lookup_item. simpl. rewrite find_app.
      fold (lookup_item (db w) n u).
      destruct (lookup_item (db w) n u) as [it|] eqn:Hit.
      * destruct (same_key n u (strip name) unit_) eqn:Ek; [|lra].
        apply same_key_true in Ek. destruct Ek as [-> ->]. congruence.
      * simpl. unfold item_matches. simpl.
        rewrite (String.eqb_sym (strip name) n), (String.eqb_sym unit_ u).
        fold (same_key n u (strip name) unit_).
        destruct (same_key n u (strip name) unit_); [|lra].
        unfold current_qty. simpl. rewrite !or0_eq. lra.
Qed.

Lemma rstrip_idempotent (s : string) : rstrip (rstrip s) = rstrip s.
Proof.
  induction s as [|c r IH]; [reflexivity|]. simpl.
  destruct (rstrip r) as [|c' r'] eqn:Er.
  - destruct (isspace c) eqn:Ec; simpl; [reflexivity|]. rewrite Ec. reflexivity.
  - simpl. simpl in IH. rewrite IH. reflexivity.
Qed.

Lemma lstrip_head (s : string) :
  match lstrip s with
  | EmptyString => True
  | String c _ => isspace c = false
  end.
Proof.
  induction s as [|c r IH]; simpl; [exact I|].
  destruct (isspace c) eqn:Ec; [exact IH | exact Ec].
Qed.

Lemma lstrip_rstrip (s : string) :
  match s with
  | EmptyString => True
  | String c _ => isspace c = false
  end ->
  lstrip (rstrip s) = rstrip s.
Proof.
  destruct s as [|c r]; [reflexivity|]. intro Hc. simpl.
  destruct (rstrip r); rewrite ?Hc; simpl; rewrite Hc; reflexivity.
Qed.

Lemma strip_idempotent (s : string) : strip (strip s) = strip s.
Proof.
  unfold strip. rewrite lstrip_rstrip by apply lstrip_head.
  apply rstrip_idempotent.
Qed.

Lemma upsert_lookup (name category unit_ : string) (quantity min_stock : Q)
    (rack_location : string) (expiry_date : option Date) (w : World) :
  exists it,
    lookup_item
      (db (exec (upsert_item name category unit_ quantity min_stock rack_location
                   expiry_date) w)) (strip name) unit_ = Some it
    /\ item_id it
       = eval (upsert_item name category unit_ quantity min_stock rack_location
                 expiry_date) w
    /\ item_category it = category
    /\ (item_min_stock it == min_stock)%Q
    /\ item_rack_location it = rack_location
    /\ item_expiry_date it = expiry_date.
Proof.
  unfold exec, eval.
  destruct (lookup_item (db w) (strip name) unit_) as [item|] eqn:Hl.
  - rewrite (upsert_found _ _ _ _ _ _ _ _ _ Hl). simpl.
    eexists. split.
    + apply lookup_after_update; [|exact Hl|reflexivity]. intro. split; reflexivity.
    + simpl. repeat split; reflexivity.
  - rewrite (upsert_absent _ _ _ _ _ _ _ _ Hl). simpl.
    eexists. split.
    + unfold lookup_item. simpl. rewrite find_app.
      fold (lookup_item (db w) (strip name) unit_). rewrite Hl. simpl.
      unfold item_matches. simpl. rewrite !String.eqb_refl. reflexivity.
    + simpl. repeat split; try reflexivity. apply or0_eq.
Qed.

(** X1.  [upsert_item] accumulates by trimmed name and unit.  With
    distinct item ids: afterwards the item found under the trimmed name
    and the unit has the returned id and the supplied category, minimum
    stock, rack and expiry date; the quantity seen under that name and
    unit has grown by the given quantity; the quantity seen under every
    other name or unit is as before; and the table has one more row only
    when no such item existed. *)
Theorem upsert_item_accumulates
    (name category unit_ : string) (quantity min_stock : Q)
    (rack_location : string) (expiry_date : option Date) (w : World) :
  items_wf (db w) ->
  let id := eval (upsert_item name category unit_ quantity min_stock
                    rack_location expiry_date) w in
  let w' := exec (upsert_item name category unit_ quantity min_stock
                    rack_location expiry_date) w in
  (exists it,
     lookup_item (db w') (strip name) unit_ = Some it
     /\ item_id it = id
     /\ item_category it = category
     /\ (item_min_stock it == min_stock)%Q
     /\ item_rack_location it = rack_location
     /\ item_expiry_date it = expiry_date)
  /\ (qty_at (db w') (strip name) unit_
      == qty_at (db w) (strip name) unit_ + quantity)%Q
  /\ (forall n u, same_key n u (strip name) unit_ = false ->
        (qty_at (db w') n u == qty_at (db w) n u)%Q)
  /\ List.length (tbl_items (db w'))
     = match lookup_item (db w) (strip name) unit_ with
       | Some _ => List.length (tbl_items (db w))
       | None => S (List.length (tbl_items (db w)))
       end.
Proof.
  intros Hwf id w'. subst id w'.
  destruct (upsert_qty_at name category unit_ quantity min_stock rack_location
              expiry_date w Hwf) as [_ Hq].
  split; [apply upsert_lookup|]. split; [|split].
  - rewrite Hq. unfold same_key. rewrite !String.eqb_refl. reflexivity.
  - intros n u Hk. rewrite Hq, Hk. lra.
  - unfold exec.
    destruct (lookup_item (db w) (strip name) unit_) as [item|] eqn:Hl.
    + rewrite (upsert_found _ _ _ _ _ _ _ _ _ Hl). simpl. apply length_map.
    + rewrite (upsert_absent _ _ _ _ _ _ _ _ Hl). simpl.
      rewrite length_app. simpl. lia.
Qed.

(** Ten gloves in stock; an upsert of " Gloves" adds 5 to them. *)
Lemma upsert_item_accumulates_witness :
  (qty_at (db (exec (upsert_item " Gloves" "APD" "box" 5 2 "R1" None)
                 (gloves_world 10))) "Gloves" "box"
   == 10 + 5)%Q
  /\ List.length (tbl_items (db (exec (upsert_item " Gloves" "APD" "box" 5 2 "R1" None)
                                  (gloves_world 10)))) = 1%nat.
Proof.
  destruct (upsert_item_accumulates " Gloves" "APD" "box" 5 2 "R1" None
              (gloves_world 10)) as (_ & Hq & _ & Hlen).
  - split; simpl.
    + repeat constructor.
    + repeat constructor. intros [].
  - split; [exact Hq | exact Hlen].
Defined.

(** ** The bulk import without a required column *)

(** X3.  A sheet that lacks one of the columns name, quantity, unit,
    whatever the letter case of its headers, makes the bulk import raise
    its ValueError before any row is processed: the world is as it was. *)
Theorem import_column_missing_raises
    (to_date : string -> option Date) (df : Sheet) (w : World) :
  (exists key, In key ["name"; "quantity"; "unit"]
               /\ forall c, In c (df_columns df) -> lower c <> key) ->
  load_inventory_from_excel to_date df w = (RaisedValueError, w).
Proof.
  intros (key & Hkey & Hnone). unfold load_inventory_from_excel.
  assert (Hno : has_column df key = false).
  { unfold has_column. destruct (existsb _ _) eqn:E; [|reflexivity].
    apply existsb_exists in E. destruct E as (c & Hc & Heq).
    apply String.eqb_eq in Heq. exfalso. apply (Hnone c Hc Heq). }
  assert (Hall : forallb (has_column df) ["name"; "quantity"; "unit"] = false).
  { destruct (forallb _ _) eqn:E; [|reflexivity].
    rewrite forallb_forall in E. rewrite (E key Hkey) in Hno. discriminate. }
  rewrite Hall. reflexivity.
Qed.

(** A sheet with a name and a unit column but no quantity column. *)
Lemma import_column_missing_raises_witness :
  load_inventory_from_excel no_date short_sheet (gloves_world 10)
  = (RaisedValueError, gloves_world 10).
Proof.
  apply (import_column_missing_raises no_date short_sheet (gloves_world 10)).
  exists "quantity". split; [simpl; tauto|].
  intros c [<-|[<-|[]]]; vm_compute; discriminate.
Defined.

(** ** The transaction log only grows *)

Lemma keeps_log {A} (R : list Transaction -> list User -> Prop) (c : M A) :
  (forall w, tbl_transactions (db (exec c w)) = tbl_transactions (db w)
             /\ tbl_users (db (exec c w)) = tbl_users (db w)) ->
  keeps (fun w => R (tbl_transactions (db w)) (tbl_users (db w))) c.
Proof. intros H w Hw. destruct (H w) as [-> ->]. exact Hw. Qed.

Lemma upsert_log (name category unit_ : string) (quantity min_stock : Q)
    (rack_location : string) (expiry_date : option Date) (w : World) :
  tbl_transactions
    (db (exec (upsert_item name category unit_ quantity min_stock rack_location
                 expiry_date) w)) = tbl_transactions (db w)
  /\ tbl_users
       (db (exec (upsert_item name category unit_ quantity min_stock rack_location
                    expiry_date) w)) = tbl_users (db w).
Proof.
  unfold exec.
  destruct (lookup_item (db w) (strip name) unit_) as [item|] eqn:Hl.
  - rewrite (upsert_found _ _ _ _ _ _ _ _ _ Hl). split; reflexivity.
  - rewrite (upsert_absent _ _ _ _ _ _ _ _ Hl). split; reflexivity.
Qed.

Lemma adjust_log (name unit_ : string) (quantity : Q) (w : World) :
  tbl_transactions (db (exec (adjust_item_for_out name unit_ quantity) w))
  = tbl_transactions (db w)
  /\ tbl_users (db (exec (adjust_item_for_out name unit_ quantity) w))
     = tbl_users (db w).
Proof.
  unfold exec.
  destruct (lookup_item (db w) name unit_) as [item|] eqn:Hl.
  - destruct (Qlt_le_dec (current_qty item) quantity) as [Hlt|Hle].
    + rewrite (adjust_short _ _ _ _ _ Hl Hlt). split; reflexivity.
    + rewrite (adjust_ok _ _ _ _ _ Hl Hle). split; reflexivity.
  - rewrite (adjust_missing _ _ _ _ Hl). split; reflexivity.
Qed.

Ltac log_frame :=
  first
    [ apply (keeps_log (fun l u => u = _ /\ exists added, l = (_ ++ added)%list));
      first [ apply upsert_log | apply adjust_log
            | intro; rewrite ?db_preflight; split; reflexivity ]
    | apply (keeps_log (fun l u => u = _ /\ l = _));
      first [ apply upsert_log | intro; split; reflexivity ] ].

Lemma add_transaction_log (l0 : list Transaction) (u0 : list User)
    (t : string) (id : option Z) (name : string)
    (quantity : Q) (unit_ : string) (requester supplier : option string)
    (note bundle code : string) (expiry : option Date) :
  keeps (log_extends l0 u0)
    (add_transaction_record t id name quantity unit_ requester supplier note
       bundle code expiry).
Proof.
  intros w [Hu (added & Hl)]. unfold exec. simpl. split; [exact Hu|].
  rewrite Hl. rewrite <- app_assoc. eexists. reflexivity.
Qed.

Lemma in_single_log (l0 : list Transaction) (u0 : list User)
    (name unit_ : string) (qty : Q) (category : string)
    (min_stock : Q) (supplier rack_location : string) (expiry_date : option Date)
    (r : Z) :
  keeps (log_extends l0 u0)
    (in_single_submit name unit_ qty category min_stock supplier rack_location
       expiry_date r).
Proof.
  unfold in_single_submit.
  destruct (py_not name || Qle_bool qty 0 || py_not unit_); [log_frame|].
  apply keeps_bind; [log_frame|]. intro id.
  apply keeps_bind; [log_frame|]. intro c.
  apply keeps_bind; [apply add_transaction_log|]. intros _. log_frame.
Qed.

Lemma in_multi_apply_log (l0 : list Transaction) (u0 : list User)
    (to_date : string -> option Date) (supplier note : string) (r : Z)
    (it : InLine) :
  keeps (log_extends l0 u0) (in_multi_apply to_date supplier note r it).
Proof.
  unfold in_multi_apply.
  apply keeps_bind; [log_frame|]. intro c.
  apply keeps_bind; [log_frame|]. intros _.
  apply keeps_bind; [log_frame|]. intro id.
  apply keeps_bind; [apply add_transaction_log|]. intros _.
  apply keeps_bind; [log_frame|]. intros _. log_frame.
Qed.

Lemma in_multi_log (l0 : list Transaction) (u0 : list User)
    (to_date : string -> option Date) (supplier note : string) (r : Z) :
  keeps (log_extends l0 u0) (in_multi_submit to_date supplier note r).
Proof.
  intros w Hw.
  destruct (in_multi w) as [|first rest] eqn:El.
  - unfold exec, in_multi_submit. rewrite El. exact Hw.
  - destruct (bad_rows in_line_invalid (in_multi w) 0) as [|e errors] eqn:Eb.
    + pose proof Eb as Hall. apply bad_rows_nil in Hall.
      assert (Hne : in_multi w <> []) by (rewrite El; discriminate).
      rewrite (in_multi_submit_valid to_date supplier note r w Hne Hall first).
      apply (in_multi_apply_log _ _ _ _ _ _ _ w Hw).
    + unfold exec, in_multi_submit. rewrite El. rewrite El in Eb. rewrite Eb.
      exact Hw.
Qed.

Lemma out_single_log (l0 : list Transaction) (u0 : list User)
    (name unit_ : string) (qty : Q) (requester note : string) (r : Z) :
  keeps (log_extends l0 u0) (out_single_submit name unit_ qty requester note r).
Proof.
  unfold out_single_submit.
  destruct (py_not name || Qle_bool qty 0 || py_not unit_ || py_not requester);
    [log_frame|].
  apply keeps_bind; [log_frame|]. intros [row|]; [|log_frame].
  destruct (Qltb (get_or0 (item_quantity row)) qty); [log_frame|].
  apply keeps_bind; [log_frame|]. intros [id [e|]]; [log_frame|].
  apply keeps_bind; [log_frame|]. intro c.
  apply keeps_bind; [apply add_transaction_log|]. intros _. log_frame.
Qed.

Lemma out_apply_line_log (l0 : list Transaction) (u0 : list User)
    (requester bundle code : string) (it : OutLine) :
  keeps (log_extends l0 u0) (out_apply_line requester bundle code it).
Proof.
  unfold out_apply_line.
  apply keeps_bind; [log_frame|]. intros [id e]. apply add_transaction_log.
Qed.

Lemma out_multi_log (l0 : list Transaction) (u0 : list User)
    (requester note_all : string) (r : Z) :
  keeps (log_extends l0 u0) (out_multi_submit requester note_all r).
Proof.
  intros w Hw. unfold exec, out_multi_submit.
  destruct (out_multi w) as [|first rest]; [exact Hw|].
  destruct (py_not requester); [exact Hw|].
  destruct (bad_rows out_line_invalid (first :: rest) 0); [|exact Hw].
  revert w Hw.
  change (keeps (log_extends l0 u0)
            (insufficient <- preflight (first :: rest) ;;
             match insufficient with
             | _ :: _ => st_error (MsgRejected insufficient)
             | [] =>
                 trx_code_ <- generate_trx_code "out" r ;;
                 for_each (first :: rest)
                   (out_apply_line requester trx_code_ trx_code_) ;;;
                 st_success (MsgOutBatchDone trx_code_) ;;;
                 clear_out_multi
             end)).
  apply keeps_bind; [log_frame|].
  intros [|x ins]; [|log_frame].
  apply keeps_bind; [log_frame|]. intro c.
  apply keeps_bind.
  - apply keeps_for_each. intros it _. apply out_apply_line_log.
  - intros _. apply keeps_bind; [log_frame|]. intros _. log_frame.
Qed.

Lemma import_log (l0 : list Transaction) (u0 : list User)
    (to_date : string -> option Date) (df : Sheet) :
  keeps (log_same l0 u0) (load_inventory_from_excel to_date df).
Proof.
  unfold load_inventory_from_excel.
  destruct (negb (forallb (has_column df) ["name"; "quantity"; "unit"]));
    [apply keeps_ret|].
  apply keeps_bind; [|intro; apply keeps_ret].
  generalize 0%nat. induction (df_rows df) as [|row rows IH]; intro k; simpl.
  - apply keeps_ret.
  - apply keeps_bind; [|intros _; apply IH].
    unfold import_row. apply keeps_bind; [log_frame|]. intros _. apply keeps_ret.
Qed.

(** X4.  No operation but the reset rewrites or removes a transaction
    row or touches the users table: after a single or batch inbound, a
    single or batch outbound or a bulk import, the transaction table is the
    one before followed by the rows added, and the users table is the
    same; the bulk import adds no transaction row at all. *)
Theorem transactions_append_only
    (to_date : string -> option Date) (o : Op) (w : World) :
  is_reset o = false ->
  tbl_users (db (step to_date o w)) = tbl_users (db w)
  /\ (exists added,
        tbl_transactions (db (step to_date o w))
        = (tbl_transactions (db w) ++ added)%list)
  /\ (is_import o = true ->
      tbl_transactions (db (step to_date o w)) = tbl_transactions (db w)).
Proof.
  intro Ho.
  assert (H0 : forall w0, db w0 = db w ->
             log_extends (tbl_transactions (db w)) (tbl_users (db w)) w0).
  { intros w0 Hdb. rewrite <- Hdb. split; [reflexivity|]. exists [].
    symmetry. apply app_nil_r. }
  destruct o; simpl in *; try discriminate.
  - destruct (in_single_log (tbl_transactions (db w)) (tbl_users (db w))
                name unit_ qty category min_stock supplier
                rack_location expiry_date r w (H0 w eq_refl)) as [Hu Hl].
    split; [exact Hu|]. split; [exact Hl | discriminate].
  - destruct (in_multi_log (tbl_transactions (db w)) (tbl_users (db w))
                to_date supplier note r (set_in_multi lines w)
                (H0 _ eq_refl)) as [Hu Hl].
    split; [exact Hu|]. split; [exact Hl | discriminate].
  - destruct (out_single_log (tbl_transactions (db w)) (tbl_users (db w))
                name unit_ qty requester note r w (H0 w eq_refl)) as [Hu Hl].
    split; [exact Hu|]. split; [exact Hl | discriminate].
  - destruct (out_multi_log (tbl_transactions (db w)) (tbl_users (db w))
                requester note_all r (set_out_multi lines w)
                (H0 _ eq_refl)) as [Hu Hl].
    split; [exact Hu|]. split; [exact Hl | discriminate].
  - destruct (import_log (tbl_transactions (db w)) (tbl_users (db w)) to_date df w)
      as [Hu Hl].
    + split; reflexivity.
    + split; [exact Hu|]. split; [|intros _; exact Hl].
      exists []. rewrite Hl. symmetry. apply app_nil_r.
Qed.

(** The refused batch of two times six gloves still adds two rows. *)
Lemma transactions_append_only_witness :
  exists added,
    tbl_transactions
      (db (step no_date
             (OpOutMulti [out_line "Gloves" "box" 6; out_line "Gloves" "box" 6]
                "Alice" "" 456)
             (gloves_world 10)))
    = (tbl_transactions (db (gloves_world 10)) ++ added)%list.
Proof.
  destruct (transactions_append_only no_date
              (OpOutMulti [out_line "Gloves" "box" 6; out_line "Gloves" "box" 6]
                 "Alice" "" 456)
              (gloves_world 10)) as (_ & H & _).
  - reflexivity.
  - exact H.
Defined.

(** ** Invariants of the items table *)

Section ItemsInvariant.

(** A property [R] of the items table that the upsert, the decrement and
    the reset keep. *)
Variable R : list Item -> Prop.

Hypothesis R_upsert :
  forall name category unit_ quantity min_stock rack_location expiry_date,
    keeps (fun w => R (tbl_items (db w)))
      (upsert_item name category unit_ quantity min_stock rack_location
         expiry_date).

Hypothesis R_adjust :
  forall name unit_ quantity,
    keeps (fun w => R (tbl_items (db w)))
      (adjust_item_for_out name unit_ quantity).

Hypothesis R_filter :
  forall l, R l -> R (filter (fun it => item_id it =? -1) l).

Let RW (w : World) : Prop := R (tbl_items (db w)).

Lemma keeps_items_frame {A} (c : M A) :
  (forall w, tbl_items (db (exec c w)) = tbl_items (db w)) -> keeps RW c.
Proof. intros H w Hw. unfold RW. rewrite H. exact Hw. Qed.

Lemma in_single_items_inv (name unit_ : string) (qty : Q) (category : string)
    (min_stock : Q) (supplier rack_location : string) (expiry_date : option Date)
    (r : Z) :
  keeps RW
    (in_single_submit name unit_ qty category min_stock supplier rack_location
       expiry_date r).
Proof.
  unfold in_single_submit.
  destruct (py_not name || Qle_bool qty 0 || py_not unit_).
  - apply keeps_items_frame. reflexivity.
  - apply keeps_bind; [apply R_upsert|]. intro id.
    apply keeps_bind; [apply keeps_items_frame; reflexivity|]. intro c.
    apply keeps_bind; [apply keeps_items_frame; reflexivity|]. intros _.
    apply keeps_items_frame. reflexivity.
Qed.

Lemma in_multi_items_inv (to_date : string -> option Date) (supplier note : string)
    (r : Z) :
  keeps RW (in_multi_submit to_date supplier note r).
Proof.
  intros w Hw.
  destruct (in_multi w) as [|first rest] eqn:El.
  - unfold exec, in_multi_submit. rewrite El. exact Hw.
  - destruct (bad_rows in_line_invalid (in_multi w) 0) as [|e errors] eqn:Eb.
    + pose proof Eb as Hall. apply bad_rows_nil in Hall.
      assert (Hne : in_multi w <> []) by (rewrite El; discriminate).
      rewrite (in_multi_submit_valid to_date supplier note r w Hne Hall first).
      revert Hw. generalize (last (in_multi w) first) as it. intros it Hw.
      revert w Hw El Eb Hall Hne.
      assert (Hk : keeps RW (in_multi_apply to_date supplier note r it)).
      { unfold in_multi_apply.
        apply keeps_bind; [apply keeps_items_frame; reflexivity|]. intro c.
        apply keeps_bind; [apply keeps_items_frame; reflexivity|]. intros _.
        apply keeps_bind; [apply R_upsert|]. intro id.
        apply keeps_bind; [apply keeps_items_frame; reflexivity|]. intros _.
        apply keeps_bind; [apply keeps_items_frame; reflexivity|]. intros _.
        apply keeps_items_frame. reflexivity. }
      intros w Hw _ _ _ _. apply Hk, Hw.
    + unfold exec, in_multi_submit. rewrite El. rewrite El in Eb. rewrite Eb.
      exact Hw.
Qed.

Lemma out_single_items_inv (name unit_ : string) (qty : Q)
    (requester note : string) (r : Z) :
  keeps RW (out_single_submit name unit_ qty requester note r).
Proof.
  unfold out_single_submit.
  destruct (py_not name || Qle_bool qty 0 || py_not unit_ || py_not requester).
  - apply keeps_items_frame. reflexivity.
  - apply keeps_bind; [apply keeps_items_frame; reflexivity|].
    intros [row|]; [|apply keeps_items_frame; reflexivity].
    destruct (Qltb (get_or0 (item_quantity row)) qty);
      [apply keeps_items_frame; reflexivity|].
    apply keeps_bind; [apply R_adjust|].
    intros [id [e|]]; [apply keeps_items_frame; reflexivity|].
    apply keeps_bind; [apply keeps_items_frame; reflexivity|]. intro c.
    apply keeps_bind; [apply keeps_items_frame; reflexivity|]. intros _.
    apply keeps_items_frame. reflexivity.
Qed.

Lemma out_multi_items_inv (requester note_all : string) (r : Z) :
  keeps RW (out_multi_submit requester note_all r).
Proof.
  intros w Hw. unfold exec, out_multi_submit.
  destruct (out_multi w) as [|first rest]; [exact Hw|].
  destruct (py_not requester); [exact Hw|].
  destruct (bad_rows out_line_invalid (first :: rest) 0); [|exact Hw].
  revert w Hw.
  change (keeps RW
            (insufficient <- preflight (first :: rest) ;;
             match insufficient with
             | _ :: _ => st_error (MsgRejected insufficient)
             | [] =>
                 trx_code_ <- generate_trx_code "out" r ;;
                 for_each (first :: rest)
                   (out_apply_line requester trx_code_ trx_code_) ;;;
                 st_success (MsgOutBatchDone trx_code_) ;;;
                 clear_out_multi
             end)).
  apply keeps_bind.
  - apply keeps_items_frame. intro w. rewrite db_preflight. reflexivity.
  - intros [|x ins]; [|apply keeps_items_frame; reflexivity].
    apply keeps_bind; [apply keeps_items_frame; reflexivity|]. intro c.
    apply keeps_bind.
    + apply keeps_for_each. intros it _. unfold out_apply_line.
      apply keeps_bind; [apply R_adjust|]. intros [id e].
      apply keeps_items_frame. reflexivity.
    + intros _. apply keeps_bind; [apply keeps_items_frame; reflexivity|].
      intros _. apply keeps_items_frame. reflexivity.
Qed.

Lemma import_items_inv (to_date : string -> option Date) (df : Sheet) :
  keeps RW (load_inventory_from_excel to_date df).
Proof.
  unfold load_inventory_from_excel.
  destruct (negb (forallb (has_column df) ["name"; "quantity"; "unit"]));
    [apply keeps_ret|].
  apply keeps_bind; [|intro; apply keeps_ret].
  generalize 0%nat. induction (df_rows df) as [|row rows IH]; intro k; simpl.
  - apply keeps_ret.
  - apply keeps_bind; [|intros _; apply IH].
    unfold import_row. apply keeps_bind; [apply R_upsert|]. intros _.
    apply keeps_ret.
Qed.

Lemma run_items_inv (to_date : string -> option Date) (ops : list Op) (w : World) :
  R (tbl_items (db w)) -> R (tbl_items (db (run to_date ops w))).
Proof.
  revert w. induction ops as [|o ops IH]; intros w Hw; simpl; [exact Hw|].
  apply IH. destruct o; simpl.
  - apply in_single_items_inv, Hw.
  - apply in_multi_items_inv, Hw.
  - apply out_single_items_inv, Hw.
  - apply out_multi_items_inv, Hw.
  - apply import_items_inv, Hw.
  - apply R_filter, Hw.
Qed.

End ItemsInvariant.

Lemma update_rows_keys (id : Z) (f : Item -> Item) (l : list Item) :
  (forall it, item_name (f it) = item_name it /\ item_unit (f it) = item_unit it) ->
  map item_key (update_rows id f l) = map item_key l.
Proof.
  intro Hf. unfold update_rows. rewrite map_map. apply map_ext.
  intro it. destruct (item_id it =? id); [|reflexivity].
  unfold item_key. destruct (Hf it) as [-> ->]. reflexivity.
Qed.

Lemma upsert_keys_unique (name category unit_ : string) (quantity min_stock : Q)
    (rack_location : string) (expiry_date : option Date) :
  keeps (fun w => NoDup (map item_key (tbl_items (db w))))
    (upsert_item name category unit_ quantity min_stock rack_location expiry_date).
Proof.
  intros w Hw. unfold exec.
  destruct (lookup_item (db w) (strip name) unit_) as [item|] eqn:Hl.
  - rewrite (upsert_found _ _ _ _ _ _ _ _ _ Hl). simpl.
    match goal with
    | |- NoDup ?x => replace x with (map item_key (tbl_items (db w)))
    end; [exact Hw|].
    symmetry. apply (update_rows_keys (item_id item)). intro; split; reflexivity.
  - rewrite (upsert_absent _ _ _ _ _ _ _ _ Hl). simpl.
    rewrite map_app. simpl. apply NoDup_app.
    + exact Hw.
    + constructor; [intros []|constructor].
    + intros k Hk [<-|[]]. apply in_map_iff in Hk.
      destruct Hk as (it & Heq & Hit).
      unfold lookup_item in Hl. pose proof (find_none _ _ Hl it Hit) as Hno.
      unfold item_key in Heq. simpl in Heq. injection Heq as Hn Hu.
      unfold item_matches in Hno. rewrite Hn, Hu, !String.eqb_refl in Hno.
      discriminate.
Qed.

Lemma adjust_keys_unique (name unit_ : string) (quantity : Q) :
  keeps (fun w => NoDup (map item_key (tbl_items (db w))))
    (adjust_item_for_out name unit_ quantity).
Proof.
  intros w Hw. unfold exec.
  destruct (lookup_item (db w) name unit_) as [item|] eqn:Hl.
  - destruct (Qlt_le_dec (current_qty item) quantity) as [Hlt|Hle].
    + rewrite (adjust_short _ _ _ _ _ Hl Hlt). exact Hw.
    + rewrite (adjust_ok _ _ _ _ _ Hl Hle). simpl.
      match goal with
      | |- NoDup ?x => replace x with (map item_key (tbl_items (db w)))
      end; [exact Hw|].
      symmetry. apply (update_rows_keys (item_id item)). intro; split; reflexivity.
  - rewrite (adjust_missing _ _ _ _ Hl). exact Hw.
Qed.

Lemma filter_keeps_distinct {X Y} (keep : X -> bool) (g : X -> Y) (xs : list X)
    (Hxs : NoDup (map g xs)) :
  NoDup (map g (filter keep xs)).
Proof.
  induction xs as [|x xs IH]; simpl; [constructor|].
  simpl in Hxs. inversion Hxs as [|? ? Hx Hrest]; subst.
  destruct (keep x); simpl; [|apply IH, Hrest].
  constructor; [|apply IH, Hrest].
  intro Hin. apply Hx. apply in_map_iff in Hin. destruct Hin as (y & Hy & Hin).
  apply filter_In in Hin. apply in_map_iff. exists y. split; [exact Hy | apply Hin].
Qed.

(** X6.  The same name and unit never get a second row.  From a state in
    which no two item rows share name and unit, no run of operations
    (single or batch inbound, single or batch outbound, bulk import,
    reset) produces two item rows with the same name and unit. *)
Theorem keys_stay_unique
    (to_date : string -> option Date) (ops : list Op) (w : World) :
  keys_unique (db w) -> keys_unique (db (run to_date ops w)).
Proof.
  unfold keys_unique. fold item_key.
  apply (run_items_inv (fun l => NoDup (map item_key l))).
  - apply upsert_keys_unique.
  - apply adjust_keys_unique.
  - intros l Hl. apply filter_keeps_distinct, Hl.
Qed.

(** Gloves come in twice, once with blanks around the name, and are
    imported twice more. *)
Lemma keys_stay_unique_witness :
  keys_unique
    (db (run no_date
           [OpInSingle "Gloves" "box" 2 "" 5 "PT Medika" "" None 123;
            OpInSingle " Gloves " "box" 3 "" 5 "PT Medika" "" None 456;
            OpImport twice_sheet]
           (gloves_world 10))).
Proof.
  apply (keys_stay_unique no_date
           [OpInSingle "Gloves" "box" 2 "" 5 "PT Medika" "" None 123;
            OpInSingle " Gloves " "box" 3 "" 5 "PT Medika" "" None 456;
            OpImport twice_sheet]
           (gloves_world 10)).
  unfold keys_unique. simpl. repeat constructor. intros [].
Defined.

Lemma update_rows_trimmed (id : Z) (f : Item -> Item) (l : list Item) :
  (forall it, item_name (f it) = item_name it) ->
  Forall (fun it => strip (item_name it) = item_name it) l ->
  Forall (fun it => strip (item_name it) = item_name it) (update_rows id f l).
Proof.
  intros Hf Hl. rewrite Forall_forall in *. intros x Hx. unfold update_rows in Hx.
  apply in_map_iff in Hx. destruct Hx as (it & <- & Hit).
  destruct (item_id it =? id); [rewrite Hf|]; apply Hl, Hit.
Qed.

Lemma upsert_names_trimmed (name category unit_ : string) (quantity min_stock : Q)
    (rack_location : string) (expiry_date : option Date) :
  keeps (fun w => Forall (fun it => strip (item_name it) = item_name it)
                    (tbl_items (db w)))
    (upsert_item name category unit_ quantity min_stock rack_location expiry_date).
Proof.
  intros w Hw. unfold exec.
  destruct (lookup_item (db w) (strip name) unit_) as [item|] eqn:Hl.
  - rewrite (upsert_found _ _ _ _ _ _ _ _ _ Hl). simpl.
    apply (update_rows_trimmed (item_id item)); [intro; reflexivity | exact Hw].
  - rewrite (upsert_absent _ _ _ _ _ _ _ _ Hl). simpl.
    apply Forall_app. split; [exact Hw|].
    constructor; [|constructor]. simpl. apply strip_idempotent.
Qed.

Lemma adjust_names_trimmed (name unit_ : string) (quantity : Q) :
  keeps (fun w => Forall (fun it => strip (item_name it) = item_name it)
                    (tbl_items (db w)))
    (adjust_item_for_out name unit_ quantity).
Proof.
  intros w Hw. unfold exec.
  destruct (lookup_item (db w) name unit_) as [item|] eqn:Hl.
  - destruct (Qlt_le_dec (current_qty item) quantity) as [Hlt|Hle].
    + rewrite (adjust_short _ _ _ _ _ Hl Hlt). exact Hw.
    + rewrite (adjust_ok _ _ _ _ _ Hl Hle). simpl.
      apply (update_rows_trimmed (item_id item)); [intro; reflexivity | exact Hw].
  - rewrite (adjust_missing _ _ _ _ Hl). exact Hw.
Qed.

Lemma run_names_trimmed (to_date : string -> option Date) (ops : list Op)
    (w : World) :
  names_trimmed (db w) -> names_trimmed (db (run to_date ops w)).
Proof.
  unfold names_trimmed.
  apply (run_items_inv (fun l => Forall (fun it => strip (item_name it)
                                                   = item_name it) l)).
  - apply upsert_names_trimmed.
  - apply adjust_names_trimmed.
  - intros l Hl. rewrite Forall_forall in *. intros it Hit.
    apply filter_In in Hit. apply Hl, Hit.
Qed.

(** X7.  Names are stored trimmed, and the outbound path does not trim.
    From a state in which every stored name is trimmed, after any run of
    operations every stored name is trimmed; and then a single outbound
    request whose name carries leading or trailing white space, however
    valid its fields, is answered "Item tidak ditemukan di inventory" and
    changes nothing, while the inbound form accepts the same text for the
    trimmed item. *)
Theorem untrimmed_name_out_not_found
    (to_date : string -> option Date) (ops : list Op) (w : World)
    (name unit_ : string) (qty : Q) (requester note : string) (r : Z) :
  names_trimmed (db w) ->
  out_request_valid name unit_ qty requester ->
  strip name <> name ->
  let w1 := run to_date ops w in
  let w2 := exec (out_single_submit name unit_ qty requester note r) w1 in
  names_trimmed (db w1)
  /\ db w2 = db w1
  /\ ui w2 = (ui w1 ++ [StError MsgNotInInventory])%list
  /\ lookup_item
       (db (exec (in_single_submit name unit_ qty "" 0 "" "" None r) w1))
       (strip name) unit_ <> None.
Proof.
  intros Htrim Hv Hpad w1 w2.
  pose proof (run_names_trimmed to_date ops w Htrim) as H1. fold w1 in H1.
  assert (Hnone : lookup_item (db w1) name unit_ = None).
  { destruct (lookup_item (db w1) name unit_) as [it|] eqn:Hl; [|reflexivity].
    exfalso. pose proof (lookup_item_In _ _ _ _ Hl) as Hin.
    apply lookup_item_key in Hl. destruct Hl as [Hn _].
    unfold names_trimmed in H1. rewrite Forall_forall in H1.
    specialize (H1 _ Hin). rewrite Hn in H1. contradiction. }
  assert (Hrun : out_single_submit name unit_ qty requester note r w1
                 = st_error MsgNotInInventory w1).
  { unfold out_single_submit. rewrite (out_request_valid_check _ _ _ _ Hv).
    unfold bind, select_item. unfold lookup_item in Hnone. rewrite Hnone.
    reflexivity. }
  split; [exact H1|]. unfold w2, exec. rewrite Hrun.
  split; [reflexivity|]. split; [reflexivity|].
  assert (Hin : in_request_valid name unit_ qty).
  { destruct Hv as (Hn & Hu & Hq & _). repeat split; assumption. }
  unfold in_single_submit. rewrite (in_request_valid_check _ _ _ Hin).
  rewrite bind_run.
  destruct (upsert_lookup name "" unit_ qty 0 "" None w1) as (it & Hit & _).
  set (wu := exec (upsert_item name "" unit_ qty 0 "" None) w1) in *.
  set (id := eval (upsert_item name "" unit_ qty 0 "" None) w1).
  assert (Hdb : tbl_items
                  (db (snd ((trx_code_ <- generate_trx_code "in" r ;;
                             add_transaction_record "in" (Some id) name qty unit_
                               None (Some "") "Single-item masuk" trx_code_
                               trx_code_ None ;;;
                             st_success (MsgInDone qty unit_ name trx_code_)) wu)))
                = tbl_items (db wu)) by reflexivity.
  unfold lookup_item. rewrite Hdb. fold (lookup_item (db wu) (strip name) unit_).
  rewrite Hit. discriminate.
Qed.

(** " Gloves" with a leading blank, asked of the ten gloves in stock. *)
Lemma untrimmed_name_out_not_found_witness :
  ui (exec (out_single_submit " Gloves" "box" 4 "Alice" "" 123) (gloves_world 10))
  = [StError MsgNotInInventory].
Proof.
  destruct (untrimmed_name_out_not_found no_date [] (gloves_world 10)
              " Gloves" "box" 4 "Alice" "" 123) as (_ & _ & H & _).
  - repeat constructor.
  - repeat split; discriminate.
  - discriminate.
  - exact H.
Defined.

(** ** What the rejection of an inbound batch names *)

Lemma bad_rows_In {A} (invalid : A -> bool) (l : list A) (idx k : nat) :
  In k (bad_rows invalid l idx)
  <-> exists j it, nth_error l j = Some it /\ invalid it = true
                   /\ k = (idx + j + 1)%nat.
Proof.
  revert idx k. induction l as [|x l IH]; intros idx k; simpl.
  - split; [intros []|]. intros (j & it & Hj & _). destruct j; discriminate.
  - split.
    + intro H. destruct (invalid x) eqn:Ex.
      * destruct H as [<-|H].
        -- exists 0%nat, x. split; [reflexivity|]. split; [exact Ex | lia].
        -- apply IH in H. destruct H as (j & it & Hj & Hi & ->).
           exists (S j), it. split; [exact Hj|]. split; [exact Hi | lia].
      * apply IH in H. destruct H as (j & it & Hj & Hi & ->).
        exists (S j), it. split; [exact Hj|]. split; [exact Hi | lia].
    + intros (j & it & Hj & Hi & ->). destruct j as [|j].
      * simpl in Hj. injection Hj as ->. rewrite Hi. left. lia.
      * simpl in Hj.
        assert (Hin : In (S idx + j + 1)%nat (bad_rows invalid l (S idx))).
        { apply IH. exists j, it. split; [exact Hj|]. split; [exact Hi | reflexivity]. }
        replace (idx + S j + 1)%nat with (S idx + j + 1)%nat by lia.
        destruct (invalid x); [right|]; exact Hin.
Qed.

(** X10.  An inbound batch with a line that fails the field check is
    answered by one error that names the failing lines and no others:
    line number [k] (counting from 1) is in the message exactly when the
    [k]-th pending line has an empty name, an empty unit or a quantity not
    above 0. *)
Theorem batch_error_names_failing_lines
    (to_date : string -> option Date) (supplier note : string) (r : Z) (w : World) :
  Exists (fun it => in_line_invalid it = true) (in_multi w) ->
  exists ns,
    ui (exec (in_multi_submit to_date supplier note r) w)
    = (ui w ++ [StError (MsgBadLines ns)])%list
    /\ forall k, In k ns
                 <-> exists it, (1 <= k)%nat
                                /\ nth_error (in_multi w) (k - 1) = Some it
                                /\ in_line_invalid it = true.
Proof.
  intro Hex. pose proof (bad_rows_exists _ _ 0%nat Hex) as Hbad.
  exists (bad_rows in_line_invalid (in_multi w) 0). split.
  - unfold exec, in_multi_submit.
    destruct (in_multi w) as [|first rest] eqn:El.
    + inversion Hex.
    + destruct (bad_rows in_line_invalid (first :: rest) 0) as [|e errors];
        [congruence | reflexivity].
  - intro k. rewrite bad_rows_In. split.
    + intros (j & it & Hj & Hi & ->). exists it. split; [lia|].
      replace (0 + j + 1 - 1)%nat with j by lia. split; assumption.
    + intros (it & Hk & Hj & Hi). exists (k - 1)%nat, it.
      split; [exact Hj|]. split; [exact Hi | lia].
Qed.

(** The scenario of the specification: the second of two lines has no
    name. *)
Lemma batch_error_names_failing_lines_witness :
  exists ns,
    ui (exec (in_multi_submit no_date "PT Medika" "" 123)
          (sample_world mask_db [in_line "Mask" "box" 5; in_line "" "box" 3] []))
    = ([] ++ [StError (MsgBadLines ns)])%list
    /\ (In 2%nat ns
        <-> exists it, (1 <= 2)%nat
                       /\ nth_error [in_line "Mask" "box" 5; in_line "" "box" 3]
                            (2 - 1) = Some it
                       /\ in_line_invalid it = true).
Proof.
  destruct (batch_error_names_failing_lines no_date "PT Medika" "" 123
              (sample_world mask_db
                 [in_line "Mask" "box" 5; in_line "" "box" 3] []))
    as (ns & Hui & Hns).
  - simpl. apply Exists_cons_tl. apply Exists_cons_hd. reflexivity.
  - exists ns. split; [exact Hui | apply (Hns 2%nat)].
Defined.

(** ** Transaction codes *)

Lemma string_app_inj_l (s1 s2 t1 t2 : string) :
  String.length s1 = String.length s2 ->
  (s1 ++ t1)%string = (s2 ++ t2)%string -> s1 = s2 /\ t1 = t2.
Proof.
  revert s2. induction s1 as [|c s1 IH]; intros [|c2 s2] Hlen H; simpl in *;
    try discriminate.
  - split; [reflexivity | exact H].
  - injection H as Hc H. injection Hlen as Hlen.
    destruct (IH s2 Hlen H) as [-> ->]. subst. split; reflexivity.
Qed.

Lemma string_app_assoc (a b c : string) :
  ((a ++ b) ++ c)%string = (a ++ (b ++ c))%string.
Proof. induction a as [|x a IH]; simpl; [reflexivity | rewrite IH; reflexivity]. Qed.

Lemma str_Z_length_3 (n : Z) : 100 <= n <= 999 -> String.length (str_Z n) = 3%nat.
Proof.
  intro H.
  assert (Hin : In n range1000).
  { unfold range1000. apply in_map_iff. exists (Z.to_nat n).
    split; [lia|]. apply in_seq. lia. }
  assert (Hall : forallb (fun k => (k <? 100) || Nat.eqb (String.length (str_Z k)) 3)
                   range1000 = true) by (vm_compute; reflexivity).
  rewrite forallb_forall in Hall. specialize (Hall n Hin).
  apply orb_true_iff in Hall. destruct Hall as [Hlt|Hlen].
  - apply Z.ltb_lt in Hlt. lia.
  - apply Nat.eqb_eq, Hlen.
Qed.

(** The part of a code after the year: month, day, time and draw. *)
Lemma code_tail_inj (t1 t2 : Datetime) (r1 r2 : Z) :
  valid_datetime t1 -> valid_datetime t2 ->
  (pad2 (month (dt_date t1)) ++ pad2 (day (dt_date t1)) ++ "-"
   ++ pad2 (dt_hour t1) ++ pad2 (dt_minute t1) ++ pad2 (dt_second t1)
   ++ "-" ++ str_Z r1)%string
  = (pad2 (month (dt_date t2)) ++ pad2 (day (dt_date t2)) ++ "-"
     ++ pad2 (dt_hour t2) ++ pad2 (dt_minute t2) ++ pad2 (dt_second t2)
     ++ "-" ++ str_Z r2)%string ->
  month (dt_date t1) = month (dt_date t2) /\ day (dt_date t1) = day (dt_date t2)
  /\ dt_hour t1 = dt_hour t2 /\ dt_minute t1 = dt_minute t2
  /\ dt_second t1 = dt_second t2 /\ r1 = r2.
Proof.
  intros ([Hm1 Hd1] & Hh1 & Hi1 & Hs1) ([Hm2 Hd2] & Hh2 & Hi2 & Hs2) H.
  apply string_app_inj_l in H; [|rewrite !pad2_length by lia; reflexivity].
  destruct H as [Hm H]. apply pad2_inj in Hm; [|lia..].
  apply string_app_inj_l in H; [|rewrite !pad2_length by lia; reflexivity].
  destruct H as [Hd H]. apply pad2_inj in Hd; [|lia..].
  injection H as H.
  apply string_app_inj_l in H; [|rewrite !pad2_length by lia; reflexivity].
  destruct H as [Hh H]. apply pad2_inj in Hh; [|lia..].
  apply string_app_inj_l in H; [|rewrite !pad2_length by lia; reflexivity].
  destruct H as [Hi H]. apply pad2_inj in Hi; [|lia..].
  apply string_app_inj_l in H; [|rewrite !pad2_length by lia; reflexivity].
  destruct H as [Hs H]. apply pad2_inj in Hs; [|lia..].
  injection H as H. apply str_Z_inj in H.
  repeat split; assumption.
Qed.

Lemma code_tail_length (t : Datetime) (r : Z) :
  valid_datetime t -> 100 <= r <= 999 ->
  String.length
    (pad2 (month (dt_date t)) ++ pad2 (day (dt_date t)) ++ "-"
     ++ pad2 (dt_hour t) ++ pad2 (dt_minute t) ++ pad2 (dt_second t)
     ++ "-" ++ str_Z r)%string = 15%nat.
Proof.
  intros ([Hm Hd] & Hh & Hi & Hs) Hr.
  repeat rewrite string_length_app. simpl String.length.
  repeat rewrite string_length_app.
  rewrite !pad2_length by lia. rewrite str_Z_length_3 by exact Hr.
  reflexivity.
Qed.

Lemma code_body_eq (t : Datetime) (r : Z) :
  (strftime_compact t ++ "-" ++ str_Z r)%string
  = (str_Z (year (dt_date t))
     ++ (pad2 (month (dt_date t)) ++ pad2 (day (dt_date t)) ++ "-"
         ++ pad2 (dt_hour t) ++ pad2 (dt_minute t) ++ pad2 (dt_second t)
         ++ "-" ++ str_Z r))%string.
Proof.
  unfold strftime_compact. rewrite !string_app_assoc. reflexivity.
Qed.

(** X12.  Two transaction codes are equal exactly when they were
    generated for the same movement type, at clock readings that agree
    to the second, with the same random draw: the code identifies type,
    second and draw, and two submissions of one type in the same second
    that draw the same number between 100 and 999 get the same code. *)
Theorem trx_code_equal_iff
    (kind1 kind2 : string) (r1 r2 : Z) (w1 w2 : World) :
  kind1 = "in" \/ kind1 = "out" ->
  kind2 = "in" \/ kind2 = "out" ->
  100 <= r1 <= 999 -> 100 <= r2 <= 999 ->
  valid_datetime (clock w1 (clock_reads w1)) ->
  valid_datetime (clock w2 (clock_reads w2)) ->
  (eval (generate_trx_code kind1 r1) w1 = eval (generate_trx_code kind2 r2) w2
   <-> kind1 = kind2
       /\ clock w1 (clock_reads w1) = clock w2 (clock_reads w2)
       /\ r1 = r2).
Proof.
  intros Hk1 Hk2 Hr1 Hr2 Hv1 Hv2.
  unfold eval, generate_trx_code, bind, datetime_now, ret. simpl.
  set (t1 := clock w1 (clock_reads w1)) in *.
  set (t2 := clock w2 (clock_reads w2)) in *.
  split.
  - intro H.
    assert (Hbody : kind1 = kind2
                    /\ (strftime_compact t1 ++ "-" ++ str_Z r1)%string
                       = (strftime_compact t2 ++ "-" ++ str_Z r2)%string).
    { destruct Hk1 as [-> | ->], Hk2 as [-> | ->]; simpl in H.
      - injection H as H. split; [reflexivity | exact H].
      - discriminate.
      - discriminate.
      - injection H as H. split; [reflexivity | exact H]. }
    destruct Hbody as [Hkind Hbody]. split; [exact Hkind|].
    rewrite !code_body_eq in Hbody.
    apply string_app_inj in Hbody;
      [|rewrite !code_tail_length by assumption; reflexivity].
    destruct Hbody as [Hy Htail]. apply str_Z_inj in Hy.
    apply code_tail_inj in Htail; [|assumption..].
    destruct Htail as (Hm & Hd & Hh & Hi & Hs & Hr). split; [|exact Hr].
    destruct t1 as [[y1 m1 d1] h1 i1 s1], t2 as [[y2 m2 d2] h2 i2 s2].
    simpl in *. congruence.
  - intros (-> & -> & ->). reflexivity.
Qed.

(** Two batches in the second 10:00:00 of 2025-01-06 that both draw 123. *)
Lemma trx_code_equal_iff_witness :
  eval (generate_trx_code "out" 123) (sample_world fresh_db [] [])
  = eval (generate_trx_code "out" 123) (sample_world (gloves_db 10) [] []).
Proof.
  apply (trx_code_equal_iff "out" "out" 123 123 (sample_world fresh_db [] [])
           (sample_world (gloves_db 10) [] [])).
  - right. reflexivity.
  - right. reflexivity.
  - lia.
  - lia.
  - unfold valid_datetime, valid_date. simpl. lia.
  - unfold valid_datetime, valid_date. simpl. lia.
  - repeat split.
Defined.

(** ** Accounts *)

Lemma find_user_app (name : string) (l : list User) (u : User) :
  existsb (fun x => String.eqb (username x) name) l = false ->
  find (fun x => String.eqb (username x) name) (l ++ [u])
  = if String.eqb (username u) name then Some u else None.
Proof.
  intro H. rewrite find_app.
  destruct (find (fun x => String.eqb (username x) name) l) as [x|] eqn:Hf.
  - exfalso. apply find_some in Hf. destruct Hf as [Hin Hx].
    assert (Hex : existsb (fun x => String.eqb (username x) name) l = true)
      by (apply existsb_exists; exists x; split; assumption).
    congruence.
  - reflexivity.
Qed.

(** X13.  [ensure_default_admin] creates the account admin / admin123
    only in an empty users table: on an empty table it leaves exactly
    that account, with which [verify_login] then succeeds; on a table
    with any row it changes nothing, whether or not an admin account is
    among the rows. *)
Theorem default_admin_only_when_empty (hash_pw : string -> string) (w : World) :
  (tbl_users (db w) = [] ->
   let w' := exec (ensure_default_admin hash_pw) w in
   tbl_users (db w') = [mkUser "admin" (hash_pw "admin123")]
   /\ eval (verify_login hash_pw "admin" "admin123") w' = true)
  /\ (tbl_users (db w) <> [] -> ensure_default_admin hash_pw w = (tt, w)).
Proof.
  split.
  - intros He w'. subst w'. unfold exec, ensure_default_admin. rewrite He.
    unfold bind, insert_user. rewrite He. simpl.
    split; [reflexivity|].
    unfold eval, verify_login. simpl. unfold bind, select_user. simpl.
    rewrite String.eqb_refl. reflexivity.
  - intro Hne. unfold ensure_default_admin.
    destruct (tbl_users (db w)); [congruence | reflexivity].
Qed.

(** A table without users gets the default account. *)
Lemma default_admin_only_when_empty_witness :
  eval (verify_login toy_hash "admin" "admin123")
    (exec (ensure_default_admin toy_hash) (users_world [])) = true.
Proof.
  apply (proj1 (default_admin_only_when_empty toy_hash (users_world []))).
  reflexivity.
Defined.

(** X14.  The "Tambah user" form and the login.  With a username and a
    password given: if the username is not yet in the table, the form
    reports success, [verify_login] then accepts that username with that
    password, and the answer for every other username is as before; if
    the username is already in the table, the form reports failure and
    changes nothing, so the stored password stays. *)
Theorem add_user_then_login
    (hash_pw : string -> string) (new_user new_pw : string) (w : World) :
  new_user <> "" -> new_pw <> "" ->
  let w' := exec (form_user_submit hash_pw new_user new_pw) w in
  let shown := eval (form_user_submit hash_pw new_user new_pw) w in
  if existsb (fun u => String.eqb (username u) new_user) (tbl_users (db w))
  then shown = GagalMenambahUser /\ w' = w
  else shown = UserDitambahkan
       /\ eval (verify_login hash_pw new_user new_pw) w' = true
       /\ forall u p, u <> new_user ->
            eval (verify_login hash_pw u p) w' = eval (verify_login hash_pw u p) w.
Proof.
  intros Hu Hp w' shown. subst w' shown.
  apply py_not_false in Hu. apply py_not_false in Hp.
  assert (Hrun : form_user_submit hash_pw new_user new_pw w
                 = if existsb (fun u => String.eqb (username u) new_user)
                        (tbl_users (db w))
                   then (GagalMenambahUser, w)
                   else (UserDitambahkan,
                         set_db (set_users
                                   (tbl_users (db w)
                                    ++ [mkUser new_user (hash_pw new_pw)])%list
                                   (db w)) w)).
  { unfold form_user_submit. rewrite Hu, Hp. simpl.
    unfold bind, insert_user. simpl.
    destruct (existsb (fun u => String.eqb (username u) new_user)
                (tbl_users (db w))); reflexivity. }
  unfold eval, exec. rewrite Hrun.
  destruct (existsb (fun u => String.eqb (username u) new_user) (tbl_users (db w)))
    eqn:Eex; simpl fst; simpl snd.
  - split; reflexivity.
  - split; [reflexivity|]. split.
    + unfold verify_login. rewrite Hu. unfold bind, select_user. simpl.
      rewrite (find_user_app _ _ _ Eex). simpl. rewrite !String.eqb_refl.
      reflexivity.
    + intros u p Hne. unfold verify_login.
      destruct (py_not u); [reflexivity|].
      unfold bind, select_user. simpl. rewrite find_app.
      destruct (find (fun x => String.eqb (username x) u) (tbl_users (db w)));
        [reflexivity|].
      simpl. apply String.eqb_neq in Hne. rewrite String.eqb_sym in Hne.
      rewrite Hne. reflexivity.
Qed.

(** "budi" registers and logs in. *)
Lemma add_user_then_login_witness :
  eval (form_user_submit toy_hash "budi" "rahasia")
    (users_world [mkUser "admin" (toy_hash "admin123")]) = UserDitambahkan
  /\ eval (verify_login toy_hash "budi" "rahasia")
       (exec (form_user_submit toy_hash "budi" "rahasia")
          (users_world [mkUser "admin" (toy_hash "admin123")])) = true.
Proof.
  pose proof (add_user_then_login toy_hash "budi" "rahasia"
                (users_world [mkUser "admin" (toy_hash "admin123")])) as H.
  simpl in H. destruct H as (H1 & H2 & _); try discriminate.
  split; [exact H1 | exact H2].
Defined.

(** X15.  After the reset nobody but "keep_admin" can log in: for every
    username other than "keep_admin" and every password, [verify_login]
    on the state the reset leaves answers no, whatever accounts existed
    before, the default admin included. *)
Theorem reset_locks_out_accounts
    (hash_pw : string -> string) (username_ password : string) (w : World) :
  username_ <> "keep_admin" ->
  eval (verify_login hash_pw username_ password) (exec reset_db w) = false.
Proof.
  intro Hne. unfold eval, verify_login.
  destruct (py_not username_); [reflexivity|].
  unfold bind, select_user. simpl.
  destruct (find (fun u => String.eqb (username u) username_)
              (filter (fun u => String.eqb (username u) "keep_admin")
                 (tbl_users (db w)))) as [u|] eqn:Hf; [|reflexivity].
  exfalso. apply find_some in Hf. destruct Hf as [Hin Hu].
  apply filter_In in Hin. destruct Hin as [_ Hk].
  apply String.eqb_eq in Hu. apply String.eqb_eq in Hk. congruence.
Qed.

(** The default admin cannot log in after a reset. *)
Lemma reset_locks_out_accounts_witness :
  eval (verify_login toy_hash "admin" "admin123")
    (exec reset_db (users_world [mkUser "admin" (toy_hash "admin123")])) = false.
Proof.
  apply (reset_locks_out_accounts toy_hash "admin" "admin123"
           (users_world [mkUser "admin" (toy_hash "admin123")])).
  discriminate.
Defined.

(** ** The unit offered for an item name *)

(** X16.  [get_item_unit] answers "" for an empty name and for a name no
    item has; for a name some item has, it answers the unit of the first
    such item, so the name together with the answered unit is always
    found by the item lookup of the inbound and outbound paths. *)
Theorem get_item_unit_resolves (name : string) (w : World) :
  exec (get_item_unit name) w = w
  /\ (name = "" -> eval (get_item_unit name) w = "")
  /\ ((forall it, In it (tbl_items (db w)) -> item_name it <> name) ->
      eval (get_item_unit name) w = "")
  /\ (name <> "" ->
      (exists it, In it (tbl_items (db w)) /\ item_name it = name) ->
      exists it, lookup_item (db w) name (eval (get_item_unit name) w) = Some it
                 /\ item_name it = name
                 /\ item_unit it = eval (get_item_unit name) w).
Proof.
  unfold get_item_unit, exec, eval.
  destruct (py_not name) eqn:En.
  - split; [reflexivity|]. split; [reflexivity|]. split; [reflexivity|].
    intro Hne. apply py_not_false in Hne. congruence.
  - destruct (find (fun it => String.eqb (item_name it) name) (tbl_items (db w)))
      as [it0|] eqn:Hf; simpl.
    + split; [reflexivity|]. split; [intros ->; discriminate|]. split.
      * intro Hnone. exfalso. apply find_some in Hf. destruct Hf as [Hin Hn].
        apply String.eqb_eq in Hn. apply (Hnone _ Hin Hn).
      * intros _ _.
        pose proof (find_some _ _ Hf) as [Hin0 Hn0]. apply String.eqb_eq in Hn0.
        destruct (lookup_item (db w) name (item_unit it0)) as [it|] eqn:Hl.
        -- exists it. split; [reflexivity|].
           apply lookup_item_key in Hl. exact Hl.
        -- exfalso. unfold lookup_item in Hl.
           pose proof (find_none _ _ Hl it0 Hin0) as Hno.
           unfold item_matches in Hno. rewrite Hn0, !String.eqb_refl in Hno.
           discriminate.
    + split; [reflexivity|]. split; [reflexivity|]. split; [reflexivity|].
      intros _ (it & Hin & Hn). exfalso.
      pose proof (find_none _ _ Hf it Hin) as Hno. simpl in Hno.
      rewrite Hn, String.eqb_refl in Hno. discriminate.
Qed.

(** The gloves in stock are offered with their unit, "box". *)
Lemma get_item_unit_resolves_witness :
  exists it,
    lookup_item (db (gloves_world 10)) "Gloves"
      (eval (get_item_unit "Gloves") (gloves_world 10)) = Some it
    /\ item_name it = "Gloves"
    /\ item_unit it = eval (get_item_unit "Gloves") (gloves_world 10).
Proof.
  apply (proj2 (proj2 (proj2 (get_item_unit_resolves "Gloves" (gloves_world 10))))).
  - discriminate.
  - exists (gloves 10). split; [left; reflexivity | reflexivity].
Defined.

(** ** Week buckets from one day to the next *)

(** X18.  Weekly totals split at Mondays.  Two movements of the same
    item, unit and type on consecutive days of one month fall into the
    same weekly row of [totals_for_period] exactly when the later day is
    not a Monday. *)
Theorem weekly_bucket_splits_on_monday (t : Transaction) (y m dd : Z) :
  valid_date (mkDate y m dd) ->
  valid_date (mkDate y m (dd + 1)) ->
  (week_key (mkMovement t (mkDate y m dd))
   = week_key (mkMovement t (mkDate y m (dd + 1)))
   <-> weekday (mkDate y m (dd + 1)) <> 0).
Proof.
  intros Hv1 Hv2. pose proof (week_W_next_day y m dd) as Hnext.
  unfold week_key. simpl. split.
  - intros H Hmon. injection H as H.
    apply strftime_Y_W_inj in H; [|assumption..]. destruct H as [_ Hw].
    rewrite Hmon in Hnext. simpl in Hnext. lia.
  - intro Hmon. apply Z.eqb_neq in Hmon. rewrite Hmon in Hnext.
    unfold strftime_Y_W. simpl year. rewrite Hnext, Z.add_0_r. reflexivity.
Qed.

(** Tuesday 2025-01-07 and Wednesday 2025-01-08. *)
Lemma weekly_bucket_splits_on_monday_witness :
  week_key (mkMovement (mv_trx (mask_in (mkDate 2025 1 7))) (mkDate 2025 1 7))
  = week_key (mkMovement (mv_trx (mask_in (mkDate 2025 1 7))) (mkDate 2025 1 (7 + 1)))
  <-> weekday (mkDate 2025 1 (7 + 1)) <> 0.
Proof.
  apply (weekly_bucket_splits_on_monday (mv_trx (mask_in (mkDate 2025 1 7)))
           2025 1 7).
  - unfold valid_date. simpl. lia.
  - unfold valid_date. simpl. lia.
Defined.

(** * The transaction log as a journal of the quantities *)

(** ** Rows and running totals *)

Lemma rows_of_snoc (id : Z) (log : list Transaction) (t : Transaction) :
  rows_of id (log ++ [t])
  = (rows_of id log ++ if refers_to id t then [t] else [])%list.
Proof.
  unfold rows_of. rewrite filter_app. simpl.
  destruct (refers_to id t); reflexivity.
Qed.

Lemma running_total_snoc (rows : list Transaction) (t : Transaction) :
  running_total (rows ++ [t])
  = book (trx_type t) (trx_quantity t) (running_total rows).
Proof. unfold running_total. rewrite fold_left_app. reflexivity. Qed.

Lemma rows_of_unreferenced (id : Z) (log : list Transaction) :
  Forall (fun t => trx_item_id t <> Some id) log -> rows_of id log = [].
Proof.
  induction 1 as [|t log Ht _ IH]; [reflexivity|].
  unfold rows_of in *. simpl. rewrite IH. unfold refers_to.
  destruct (trx_item_id t) as [i|]; [|reflexivity].
  destruct (i =? id) eqn:E; [|reflexivity].
  apply Z.eqb_eq in E. subst. congruence.
Qed.

(** ** Owners *)

Lemma owner_update (d : Database) (i : Z) (f : Item -> Item)
    (id : Z) (name unit_ : string) :
  (forall it, item_id (f it) = item_id it /\ item_name (f it) = item_name it
              /\ item_unit (f it) = item_unit it) ->
  owner d id name unit_ ->
  owner (set_items (update_rows i f (tbl_items d)) d) id name unit_.
Proof.
  intros Hf (it & Hin & Hid & Hn & Hu).
  exists (if item_id it =? i then f it else it). split.
  - simpl. unfold update_rows.
    apply (in_map (fun it => if item_id it =? i then f it else it)), Hin.
  - destruct (Hf it) as (Hfi & Hfn & Hfu).
    destruct (item_id it =? i); [rewrite Hfi, Hfn, Hfu|]; auto.
Qed.

Lemma row_recorded_items (d d' : Database) (t : Transaction) :
  (forall id name unit_, owner d id name unit_ -> owner d' id name unit_) ->
  row_recorded d t -> row_recorded d' t.
Proof.
  intros Hown [Htyp (id & Hid & Ho)]. split; [exact Htyp|].
  exists id. split; [exact Hid | apply Hown, Ho].
Qed.

(** The rows of the log refer to ids below the serial counter. *)
Lemma journal_rows_below (pend : Pending) (d : Database) (t : Transaction) :
  journal_inv pend d -> In t (tbl_transactions d) ->
  trx_item_id t <> Some (seq_items d).
Proof.
  intros (_ & _ & Hitems & Hrows) Ht Heq.
  rewrite Forall_forall in Hitems, Hrows.
  destruct (Hrows _ Ht) as [_ [_ (id & Hid & it & Hin & Hit & _)]].
  destruct (Hitems _ Hin) as [Hb _].
  rewrite Hid in Heq. injection Heq as Heq. lia.
Qed.

(** ** The two quantity writes and the row insert *)

(** Rewriting the rows of one id with a function that keeps id, name and
    unit. *)
Lemma journal_update (d : Database) (f : Item -> Item) (item : Item)
    (typ : string) (q : Q) :
  journal_inv None d ->
  In item (tbl_items d) ->
  (forall it, item_id (f it) = item_id it /\ item_name (f it) = item_name it
              /\ item_unit (f it) = item_unit it) ->
  item_quantity (f item) = book typ q (item_quantity item) ->
  journal_inv (Some (item_id item, typ, q))
    (set_items (update_rows (item_id item) f (tbl_items d)) d).
Proof.
  intros (Hseq & Hnd & Hitems & Hrows) Hin Hf Hnew.
  unfold journal_inv. simpl.
  split; [exact Hseq|]. split; [|split].
  - rewrite update_rows_ids; [exact Hnd | intro it; apply Hf].
  - rewrite Forall_forall in *. intros x Hx. unfold update_rows in Hx.
    apply in_map_iff in Hx. destruct Hx as (it & <- & Hit).
    destruct (Hitems _ Hit) as (Hb & Htrim & Hsome & Hq).
    destruct (Hf it) as (Hfi & Hfn & _).
    destruct (item_id it =? item_id item) eqn:E.
    + apply Z.eqb_eq in E.
      assert (it = item) by (apply (NoDup_map_inj item_id _ _ _ Hnd); assumption).
      subst it. rewrite Hfi, Hfn, Z.eqb_refl.
      split; [exact Hb|]. split; [exact Htrim|].
      simpl in Hq. rewrite <- Hq. split; [|exact Hnew].
      rewrite Hnew. unfold book.
      destruct (String.eqb typ "in"); [destruct (item_quantity item)|]; discriminate.
    + rewrite (Z.eqb_sym (item_id item)), E.
      split; [exact Hb|]. split; [exact Htrim|]. split; [exact Hsome | exact Hq].
  - rewrite Forall_forall in *. intros t Ht.
    destruct (Hrows _ Ht) as [Hb Hrec]. split; [exact Hb|].
    apply (row_recorded_items d); [|exact Hrec].
    intros id name unit_. apply owner_update, Hf.
Qed.

Lemma upsert_journal (name category unit_ : string) (quantity min_stock : Q)
    (rack_location : string) (expiry_date : option Date) :
  hoare (fun w => journal_inv None (db w))
    (upsert_item name category unit_ quantity min_stock rack_location expiry_date)
    (fun id w => journal_inv (Some (id, "in", quantity)) (db w)
                 /\ owner (db w) id (strip name) unit_).
Proof.
  intros w Hw. unfold eval, exec.
  destruct (lookup_item (db w) (strip name) unit_) as [item|] eqn:Hl.
  - rewrite (upsert_found _ _ _ _ _ _ _ _ _ Hl). simpl.
    pose proof (lookup_item_In _ _ _ _ Hl) as Hin.
    destruct (lookup_item_key _ _ _ _ Hl) as [Hn Hu].
    assert (Hf : forall it,
               item_id (in_update (current_qty item + or0 quantity) category
                          min_stock rack_location expiry_date
                          (clock w (clock_reads w)) it) = item_id it
               /\ item_name (in_update (current_qty item + or0 quantity) category
                               min_stock rack_location expiry_date
                               (clock w (clock_reads w)) it) = item_name it
               /\ item_unit (in_update (current_qty item + or0 quantity) category
                               min_stock rack_location expiry_date
                               (clock w (clock_reads w)) it) = item_unit it)
      by (intro it; repeat split).
    split.
    + apply (journal_update (db w)); try assumption.
      simpl. unfold book, current_qty. simpl.
      destruct Hw as (_ & _ & Hitems & _). rewrite Forall_forall in Hitems.
      destruct (Hitems _ Hin) as (_ & _ & Hsome & _).
      destruct (item_quantity item); [reflexivity | congruence].
    + apply owner_update; [exact Hf|].
      exists item. repeat split; assumption.
  - rewrite (upsert_absent _ _ _ _ _ _ _ _ Hl). simpl.
    pose proof (fun t => journal_rows_below None (db w) t Hw) as Hbelow.
    destruct Hw as ((Hsi & Hst) & Hnd & Hitems & Hrows).
    split.
    + unfold journal_inv. simpl. split; [lia|]. split; [|split].
      * rewrite map_app. simpl. apply NoDup_app.
        -- exact Hnd.
        -- constructor; [intros []|constructor].
        -- intros i Hi [<-|[]]. apply in_map_iff in Hi.
           destruct Hi as (it & Heq & Hit). rewrite Forall_forall in Hitems.
           destruct (Hitems _ Hit) as [Hb _]. lia.
      * apply Forall_app. split.
        -- rewrite Forall_forall in *. intros it Hit.
           destruct (Hitems _ Hit) as (Hb & Htrim & Hsome & Hq).
           split; [lia|]. split; [exact Htrim|]. split; [exact Hsome|].
           destruct (seq_items (db w) =? item_id it) eqn:E;
             [apply Z.eqb_eq in E; lia | exact Hq].
        -- constructor; [|constructor]. simpl.
           split; [lia|]. split; [apply strip_idempotent|].
           split; [discriminate|]. rewrite Z.eqb_refl.
           rewrite rows_of_unreferenced; [reflexivity|].
           apply Forall_forall. exact Hbelow.
      * rewrite Forall_forall in *. intros t Ht.
        destruct (Hrows _ Ht) as [Hb Hrec]. split; [exact Hb|].
        apply (row_recorded_items (db w)); [|exact Hrec].
        intros id n u (it & Hin & Hrest). exists it.
        split; [simpl; apply in_or_app; left; exact Hin | exact Hrest].
    + eexists. split; [simpl; apply in_or_app; right; left; reflexivity|].
      repeat split.
Qed.

Lemma adjust_journal (name unit_ : string) (quantity : Q) :
  hoare (fun w => journal_inv None (db w)) (adjust_item_for_out name unit_ quantity)
    (adjust_journal_post name unit_ quantity).
Proof.
  intros w Hw. unfold eval, exec.
  destruct (lookup_item (db w) name unit_) as [item|] eqn:Hl.
  - destruct (Qlt_le_dec (current_qty item) quantity) as [Hlt|Hle].
    + rewrite (adjust_short _ _ _ _ _ Hl Hlt). exact Hw.
    + rewrite (adjust_ok _ _ _ _ _ Hl Hle). simpl.
      pose proof (lookup_item_In _ _ _ _ Hl) as Hin.
      destruct (lookup_item_key _ _ _ _ Hl) as [Hn Hu].
      assert (Hf : forall it,
                 item_id (out_update (current_qty item - quantity)
                            (clock w (clock_reads w)) it) = item_id it
                 /\ item_name (out_update (current_qty item - quantity)
                                 (clock w (clock_reads w)) it) = item_name it
                 /\ item_unit (out_update (current_qty item - quantity)
                                 (clock w (clock_reads w)) it) = item_unit it)
        by (intro it; repeat split).
      split.
      * apply (journal_update (db w)); try assumption. reflexivity.
      * apply owner_update; [exact Hf|].
        exists item. split; [exact Hin|]. split; [reflexivity|].
        split; [|exact Hu].
        destruct Hw as (_ & _ & Hitems & _). rewrite Forall_forall in Hitems.
        destruct (Hitems _ Hin) as (_ & Htrim & _).
        rewrite <- Hn. symmetry. exact Htrim.
  - rewrite (adjust_missing _ _ _ _ Hl). exact Hw.
Qed.

(** The insert of the row that belongs to the quantity write just done. *)
Lemma add_transaction_journal (typ : string) (id : Z) (name : string)
    (quantity : Q) (unit_ : string) (requester supplier : option string)
    (note bundle code : string) (expiry : option Date) :
  typ = "in" \/ typ = "out" ->
  hoare (fun w => journal_inv (Some (id, typ, quantity)) (db w)
                  /\ owner (db w) id (strip name) unit_)
    (add_transaction_record typ (Some id) name quantity unit_ requester supplier
       note bundle code expiry)
    (fun _ w => journal_inv None (db w)).
Proof.
  intros Htyp w [((Hsi & Hst) & Hnd & Hitems & Hrows) Hown]. unfold exec. simpl.
  unfold journal_inv. simpl. split; [lia|]. split; [exact Hnd|]. split.
  - rewrite Forall_forall in *. intros it Hit.
    destruct (Hitems _ Hit) as (Hb & Htrim & Hsome & Hq).
    split; [exact Hb|]. split; [exact Htrim|]. split; [exact Hsome|].
    rewrite rows_of_snoc. unfold refers_to. simpl. simpl in Hq.
    destruct (id =? item_id it).
    + rewrite running_total_snoc. exact Hq.
    + rewrite app_nil_r. exact Hq.
  - apply Forall_app. split.
    + rewrite Forall_forall in *. intros t Ht.
      destruct (Hrows _ Ht) as [Hb Hrec]. split; [lia | exact Hrec].
    + constructor; [|constructor]. simpl. split; [lia|].
      split; [exact Htyp|]. exists id. split; [reflexivity | exact Hown].
Qed.

(** ** The handlers *)

Ltac journal_frame := apply keeps_db; intro; reflexivity.

Lemma in_single_journal (name unit_ : string) (qty : Q) (category : string)
    (min_stock : Q) (supplier rack_location : string) (expiry_date : option Date)
    (r : Z) :
  keeps (fun w => journal_inv None (db w))
    (in_single_submit name unit_ qty category min_stock supplier rack_location
       expiry_date r).
Proof.
  unfold in_single_submit.
  destruct (py_not name || Qle_bool qty 0 || py_not unit_).
  - journal_frame.
  - eapply hoare_bind; [apply upsert_journal|]. intro id.
    eapply hoare_bind.
    + apply (keeps_db (fun d => journal_inv (Some (id, "in", qty)) d
                                /\ owner d id (strip name) unit_)).
      apply db_generate_trx_code.
    + intro c. eapply hoare_bind.
      * apply add_transaction_journal. left. reflexivity.
      * intros []. journal_frame.
Qed.

Lemma in_multi_apply_journal (to_date : string -> option Date)
    (supplier note : string) (r : Z) (it : InLine) :
  keeps (fun w => journal_inv None (db w))
    (in_multi_apply to_date supplier note r it).
Proof.
  unfold in_multi_apply.
  apply keeps_bind; [journal_frame|]. intro c.
  apply keeps_bind; [journal_frame|]. intros _.
  eapply hoare_bind; [apply upsert_journal|]. intro id.
  eapply hoare_bind.
  - apply add_transaction_journal. left. reflexivity.
  - intros []. apply keeps_bind; [journal_frame|]. intros _. journal_frame.
Qed.

Lemma in_multi_journal (to_date : string -> option Date) (supplier note : string)
    (r : Z) :
  keeps (fun w => journal_inv None (db w)) (in_multi_submit to_date supplier note r).
Proof.
  intros w Hw.
  destruct (in_multi w) as [|first rest] eqn:El.
  - unfold exec, in_multi_submit. rewrite El. exact Hw.
  - destruct (bad_rows in_line_invalid (in_multi w) 0) as [|e errors] eqn:Eb.
    + pose proof Eb as Hall. apply bad_rows_nil in Hall.
      assert (Hne : in_multi w <> []) by (rewrite El; discriminate).
      rewrite (in_multi_submit_valid to_date supplier note r w Hne Hall first).
      apply (in_multi_apply_journal _ _ _ _ _ w Hw).
    + unfold exec, in_multi_submit. rewrite El. rewrite El in Eb. rewrite Eb.
      exact Hw.
Qed.

Lemma out_single_journal (name unit_ : string) (qty : Q) (requester note : string)
    (r : Z) :
  keeps (fun w => journal_inv None (db w))
    (out_single_submit name unit_ qty requester note r).
Proof.
  unfold out_single_submit.
  destruct (py_not name || Qle_bool qty 0 || py_not unit_ || py_not requester).
  - journal_frame.
  - apply keeps_bind; [journal_frame|]. intros [row|]; [|journal_frame].
    destruct (Qltb (get_or0 (item_quantity row)) qty); [journal_frame|].
    eapply hoare_bind; [apply adjust_journal|].
    intros [[id|] [e|]]; simpl; try apply hoare_false.
    + eapply hoare_bind.
      * apply (keeps_db (fun d => journal_inv (Some (id, "out", qty)) d
                                  /\ owner d id (strip name) unit_)).
        apply db_generate_trx_code.
      * intro c. eapply hoare_bind.
        -- apply add_transaction_journal. right. reflexivity.
        -- intros []. journal_frame.
    + journal_frame.
Qed.

Lemma filter_none {A} (keep : A -> bool) (l : list A) :
  Forall (fun x => keep x = false) l -> filter keep l = [].
Proof.
  induction 1 as [|x l Hx _ IH]; [reflexivity|]. simpl. rewrite Hx. exact IH.
Qed.

(** With positive ids the reset leaves no item and no transaction row. *)
Lemma reset_journal : keeps (fun w => journal_inv None (db w)) reset_db.
Proof.
  intros w (Hseq & Hnd & Hitems & Hrows). unfold exec. simpl.
  assert (Hi : filter (fun it => item_id it =? -1) (tbl_items (db w)) = []).
  { apply filter_none. eapply Forall_impl; [|exact Hitems]. simpl.
    intros it [Hb _]. apply Z.eqb_neq. lia. }
  assert (Ht : filter (fun t => trx_id t =? -1) (tbl_transactions (db w)) = []).
  { apply filter_none. eapply Forall_impl; [|exact Hrows]. simpl.
    intros t [Hb _]. apply Z.eqb_neq. lia. }
  unfold journal_inv. simpl. rewrite Hi, Ht.
  split; [exact Hseq|]. repeat split; constructor.
Qed.

(** ** Runs *)

Lemma script_step_journal (to_date : string -> option Date) (o : Op) (w : World) :
  is_import o = false ->
  journal_inv None (db w) -> journal_inv None (db (script_step to_date o w)).
Proof.
  intros Ho Hw. destruct o; simpl; try discriminate.
  - apply in_single_journal, Hw.
  - apply in_multi_journal, Hw.
  - apply out_single_journal, Hw.
  - rewrite out_multi_page_db. exact Hw.
  - apply reset_journal, Hw.
Qed.

Lemma script_run_journal (to_date : string -> option Date) (ops : list Op)
    (w : World) :
  Forall (fun o => is_import o = false) ops ->
  journal_inv None (db w) -> journal_inv None (db (script_run to_date ops w)).
Proof.
  revert w. induction ops as [|o ops IH]; intros w Hops Hw; simpl.
  - exact Hw.
  - inversion Hops as [|? ? Ho Hrest]; subst.
    apply IH; [exact Hrest|]. apply script_step_journal; assumption.
Qed.

Lemma fresh_journal (d : Database) : fresh_backend d -> journal_inv None d.
Proof.
  intros (Hi & Ht & Hsi & Hst). unfold journal_inv. rewrite Hi, Ht. simpl.
  split; [split; assumption|]. repeat split; constructor.
Qed.

(** A step of the script is the step of its handler or leaves the
    backend as it is. *)
Lemma script_step_db (to_date : string -> option Date) (o : Op) (w : World) :
  db (script_step to_date o w) = db (step to_date o w)
  \/ db (script_step to_date o w) = db w.
Proof.
  destruct o; try (left; reflexivity).
  right. simpl. rewrite out_multi_page_db. reflexivity.
Qed.

Lemma script_run_keys (to_date : string -> option Date) (ops : list Op)
    (w : World) :
  keys_unique (db w) -> keys_unique (db (script_run to_date ops w)).
Proof.
  unfold keys_unique. fold item_key.
  revert w. induction ops as [|o ops IH]; intros w Hw; simpl; [exact Hw|].
  apply IH. destruct (script_step_db to_date o w) as [-> | ->]; [|exact Hw].
  apply (run_items_inv (fun l => NoDup (map item_key l))
           upsert_keys_unique adjust_keys_unique
           (fun l => filter_keeps_distinct _ item_key l) to_date [o] w).
  exact Hw.
Qed.

(** With distinct ids and distinct names and units, the rows that carry
    the id of an item are the rows that carry its name and unit. *)
Lemma rows_of_named (d : Database) (it : Item) :
  NoDup (map item_id (tbl_items d)) ->
  NoDup (map item_key (tbl_items d)) ->
  Forall (row_recorded d) (tbl_transactions d) ->
  In it (tbl_items d) ->
  rows_of (item_id it) (tbl_transactions d)
  = rows_named (item_name it) (item_unit it) (tbl_transactions d).
Proof.
  intros Hids Hkeys Hrows Hit. unfold rows_of, rows_named.
  apply filter_ext_in. intros t Ht. rewrite Forall_forall in Hrows.
  destruct (Hrows _ Ht) as [_ (id & Hid & o & Ho & Hoid & Hn & Hu)].
  unfold refers_to, same_key. rewrite Hid, <- Hn, <- Hu, <- Hoid.
  destruct (item_id o =? item_id it) eqn:E.
  - apply Z.eqb_eq in E.
    assert (o = it) by (apply (NoDup_map_inj item_id _ _ _ Hids); assumption).
    subst o. rewrite !String.eqb_refl. reflexivity.
  - apply Z.eqb_neq in E. symmetry. apply andb_false_iff.
    destruct (String.eqb (item_name o) (item_name it)) eqn:En; [|left; reflexivity].
    destruct (String.eqb (item_unit o) (item_unit it)) eqn:Eu; [|right; reflexivity].
    exfalso. apply E. apply String.eqb_eq in En, Eu.
    assert (o = it); [|subst; reflexivity].
    apply (NoDup_map_inj item_key _ _ _ Hkeys); try assumption.
    unfold item_key. rewrite En, Eu. reflexivity.
Qed.

Lemma journal_inv_ok (d : Database) :
  keys_unique d -> journal_inv None d -> journal_ok d.
Proof.
  intros Hkeys (_ & Hnd & Hitems & Hrows).
  assert (Hrec : Forall (row_recorded d) (tbl_transactions d)).
  { eapply Forall_impl; [|exact Hrows]. simpl. intros t [_ Hrec]. exact Hrec. }
  split; [exact Hnd|]. split; [exact Hkeys|]. split; [exact Hrec|].
  rewrite Forall_forall in *. intros it Hit.
  destruct (Hitems _ Hit) as (_ & _ & Hsome & Hq). simpl in Hq.
  split; [|split; [|exact Hq]].
  - intro Hnil. rewrite Hnil in Hq. apply Hsome. exact Hq.
  - apply rows_of_named; try assumption.
    apply Forall_forall. exact Hrec.
Qed.

(** C7, as the code has it.  Take a backend with no item and no
    transaction rows and any run of the script made of single or batch
    inbound, single or batch outbound and reset actions.  Afterwards the
    items are distinct by id and by name and unit, every transaction row
    is an "in" or "out" row of one of them (it carries that item's id and
    unit, and its name is the item's name up to surrounding white space),
    so that the rows of an item by id and by name and unit are the same,
    every item has at least one row, and every item's stored quantity is
    the running total of its rows in the order of the log: the quantity
    of the first row, then each later inbound quantity added and each
    outbound quantity subtracted, as the code computed them.  Both sides
    are the result of the same additions and subtractions in the same
    order, so the equality does not rest on any law of arithmetic.  The
    bulk import is left out: it writes quantities and no transaction
    row. *)
Theorem quantity_is_running_total
    (to_date : string -> option Date) (ops : list Op) (w : World) :
  fresh_backend (db w) ->
  Forall (fun o => is_import o = false) ops ->
  journal_ok (db (script_run to_date ops w)).
Proof.
  intros Hfresh Hops. apply journal_inv_ok.
  - apply script_run_keys. unfold keys_unique.
    destruct Hfresh as [-> _]. constructor.
  - apply script_run_journal; [exact Hops|]. apply fresh_journal, Hfresh.
Qed.

(** Ten gloves come in under a padded name, a batch that asks six twice
    is tried, four go out, a batch of gloves and masks books its last
    line, and a tenth of a box of gloves comes in. *)
Lemma quantity_is_running_total_witness :
  journal_ok
    (db (script_run no_date
           [OpInSingle " Gloves" "box" 10 "" 5 "PT Medika" "" None 123;
            OpOutMulti [out_line "Gloves" "box" 6; out_line "Gloves" "box" 6]
              "Alice" "" 456;
            OpOutSingle "Gloves" "box" 4 "Bob" "" 789;
            OpInMulti [in_line "Gloves" "box" (1 # 2); in_line "Mask" "box" 5]
              "PT Medika" "" 321;
            OpInSingle "Gloves" "box" (1 # 10) "" 5 "PT Medika" "" None 654]
           (sample_world fresh_db [] []))).
Proof.
  apply (quantity_is_running_total no_date
           [OpInSingle " Gloves" "box" 10 "" 5 "PT Medika" "" None 123;
            OpOutMulti [out_line "Gloves" "box" 6; out_line "Gloves" "box" 6]
              "Alice" "" 456;
            OpOutSingle "Gloves" "box" 4 "Bob" "" 789;
            OpInMulti [in_line "Gloves" "box" (1 # 2); in_line "Mask" "box" 5]
              "PT Medika" "" 321;
            OpInSingle "Gloves" "box" (1 # 10) "" 5 "PT Medika" "" None 654]
           (sample_world fresh_db [] [])).
  - repeat split.
  - repeat constructor.
Defined.

(** C7 as stated fails on the bulk import: from a backend with no rows,
    importing one row of five boxes leaves an item with quantity 5 and an
    empty transaction table.  The inbound minus the outbound movements
    recorded for the item are 0, and it has no row to total. *)
Lemma import_leaves_no_transaction :
  fresh_backend (db (sample_world fresh_db [] []))
  /\ (let d := db (script_run no_date [OpImport five_sheet]
                    (sample_world fresh_db [] [])) in
      map current_qty (tbl_items d) = [5%Q]
      /\ map item_id (tbl_items d) = [1]
      /\ tbl_transactions d = []
      /\ ledger_sum 1 (tbl_transactions d) = 0%Q
      /\ running_total (rows_of 1 (tbl_transactions d)) = None
      /\ ~ ledger_consistent d
      /\ ~ journal_ok d).
Proof.
  repeat split.
  - intro H. inversion H as [|? ? Hq _]. subst. simpl in Hq. discriminate Hq.
  - intros (_ & _ & _ & H). inversion H as [|? ? [Hrows _] _]. subst.
    apply Hrows. reflexivity.
Qed.
